(** * A shallow embedding of [server.js], the minimal RAG server

    The server normalises three kinds of input (inline text, an uploaded
    PDF, a YouTube URL) into documents, chunks them, writes them to a shared
    Qdrant collection and later answers questions against that collection.

    Conventions of the embedding:
    - a JavaScript string is the list of its UTF-16 code units, so [length],
      [slice] and [trim] count and cut what the engine counts and cuts;
    - a value that may be [undefined] or [null] is an [option];
    - every collaborator outside the file (file system, PDF loader, caption
      loader, text splitter, Qdrant, OpenAI) is an oracle acting on an
      abstract outside world [Ext]; each call is appended to a trace;
    - an [async] function is a computation in the monad [M], which threads
      the process state and may throw; [await] is [bind];
    - console output feeds nothing back into the program and is left out. *)

From stdpp Require Import gmap list strings.
From Stdlib Require Import Ascii NArith Decimal DecimalPos DecimalN QArith_base.

Open Scope N_scope.
Open Scope nat_scope.
Open Scope list_scope.

(** ** JavaScript strings *)

Module Js.

Abbreviation jsstring := (list N) (only parsing).

(** An ASCII literal of the source, as code units. *)
Definition lit (s : string) : jsstring :=
  map N_of_ascii (String.list_ascii_of_string s).

Definition LF : jsstring := [10%N].

(** [WhiteSpace] and [LineTerminator] of ECMAScript, the code points that
    [String.prototype.trim] strips. *)
Definition is_white_space (c : N) : bool :=
  ((9 <=? c) && (c <=? 13) || (c =? 32) || (c =? 160) || (c =? 5760)
   || (8192 <=? c) && (c <=? 8202) || (c =? 8232) || (c =? 8233)
   || (c =? 8239) || (c =? 8287) || (c =? 12288) || (c =? 65279))%N.

Fixpoint trimStart (s : jsstring) : jsstring :=
  match s with
  | [] => []
  | c :: rest => if is_white_space c then trimStart rest else s
  end.

Definition trimEnd (s : jsstring) : jsstring :=
  reverse (trimStart (reverse s)).

Definition trim (s : jsstring) : jsstring := trimEnd (trimStart s).

(** [s.slice(a, b)] for [0 <= a <= b]. *)
Definition slice (a b : nat) (s : jsstring) : jsstring := drop a (take b s).

(** [arr.join(sep)] on an array of strings. *)
Fixpoint join (sep : jsstring) (parts : list jsstring) : jsstring :=
  match parts with
  | [] => []
  | [p] => p
  | p :: rest => p ++ sep ++ join sep rest
  end.

(** Truthiness of a possibly absent string: [undefined], [null] and the
    empty string are falsy. *)
Definition truthy (o : option jsstring) : bool :=
  match o with
  | Some (_ :: _) => true
  | _ => false
  end.

(** [o || d] on strings. *)
Definition or_else (o : option jsstring) (d : jsstring) : jsstring :=
  match o with
  | Some (c :: rest) => c :: rest
  | _ => d
  end.

Definition digit (d : N) : N := (48 + d)%N.

Fixpoint digits_of_uint (u : Decimal.uint) : jsstring :=
  match u with
  | Nil => []
  | D0 r => digit 0 :: digits_of_uint r
  | D1 r => digit 1 :: digits_of_uint r
  | D2 r => digit 2 :: digits_of_uint r
  | D3 r => digit 3 :: digits_of_uint r
  | D4 r => digit 4 :: digits_of_uint r
  | D5 r => digit 5 :: digits_of_uint r
  | D6 r => digit 6 :: digits_of_uint r
  | D7 r => digit 7 :: digits_of_uint r
  | D8 r => digit 8 :: digits_of_uint r
  | D9 r => digit 9 :: digits_of_uint r
  end.

(** A non-negative integer interpolated into a template literal. *)
Definition of_nat (n : nat) : jsstring := digits_of_uint (Nat.to_uint n).
Definition of_N (n : N) : jsstring := digits_of_uint (N.to_uint n).

End Js.

Import Js.

(** ** Documents *)

Record Metadata := mkMetadata {
  source : option jsstring;
  note : option jsstring
}.

Record Document := mkDocument {
  pageContent : option jsstring;
  metadata : option Metadata
}.

(** [new Document({ pageContent, metadata: { source, note } })] *)
Definition new_Document (content : jsstring) (src : jsstring)
    (nt : option jsstring) : Document :=
  {| pageContent := Some content;
     metadata := Some {| source := Some src; note := nt |} |}.

(** [d.pageContent || ""] *)
Definition content_of (d : Document) : jsstring :=
  or_else (pageContent d) [].

(** [d.metadata?.source] and [d.metadata?.note] *)
Definition source_of (d : Document) : option jsstring :=
  match metadata d with Some m => source m | None => None end.

Definition note_of (d : Document) : option jsstring :=
  match metadata d with Some m => note m | None => None end.

(** ** Source normaliser: inline text *)

Definition loadInline (text : option jsstring) : list Document :=
  match text with
  | None => []
  | Some t =>
      if negb (truthy (Some t)) || negb (truthy (Some (trim t))) then []
      else [new_Document t (lit "inline") None]
  end.

(** ** Errors, configuration and the data passed to collaborators *)

Record Err := mkErr {
  message : option jsstring;   (* [e?.message] *)
  as_string : jsstring         (* the error interpolated into a string *)
}.

(** [new Error(msg)] *)
Definition new_Error (msg : jsstring) : Err :=
  {| message := Some msg; as_string := lit "Error: " ++ msg |}.

(** [process.env], the variables the modelled code reads. *)
Record Env := mkEnv {
  env_OPENAI_API_KEY : option jsstring;
  env_YT_LANGUAGE : option jsstring
}.

Definition COLLECTION_NAME : jsstring := lit "ragChat".

(** Options handed to [YoutubeLoader.createFromUrl]. *)
Record YoutubeConfig := mkYoutubeConfig {
  language : option jsstring;
  addVideoInfo : bool;
  translation : option jsstring
}.

(** A [QdrantVectorStore]: the client and the embeddings are the module's
    singletons, so a handle is told apart by its collection. *)
Record QdrantVectorStore := mkStore { collectionName : jsstring }.

Record ChatOpenAI := mkChatOpenAI {
  apiKey : jsstring;
  model : jsstring;
  temperature : Q
}.

Record ChatMessage := mkChatMessage { role : jsstring; content : jsstring }.

(** What [llm.invoke] resolves to, as far as [answer] looks at it:
    [res?.content] is a string, an array of strings and objects with an
    optional [text], or something else, of which only [JSON.stringify]
    (possibly [undefined]) is used. *)
Inductive Fragment :=
| FragString (s : jsstring)
| FragObject (frag_text : option jsstring).

Inductive ResContent :=
| ContentString (s : jsstring)
| ContentArray (cs : list Fragment)
| ContentOther (json : option jsstring).

(** Calls that leave the process, in the order they are made. *)
Inductive Event :=
| EvAccess (path : jsstring)
| EvPdfLoad (path : jsstring)
| EvYoutubeLoad (url : jsstring) (cfg : YoutubeConfig)
| EvUnlink (path : jsstring)
| EvSplitDocuments (chunkSize chunkOverlap : nat) (docs : list Document)
| EvFromExistingCollection (name : jsstring)
| EvFromDocuments (chunks : list Document) (name : jsstring)
| EvGetRelevantDocuments (store : QdrantVectorStore) (k : nat)
    (query : jsstring)
| EvInvoke (llm : ChatOpenAI) (messages : list ChatMessage).

(** Which outside service a call reaches.  Writing documents and retrieving
    them both embed text (OpenAI embeddings) and talk to Qdrant. *)
Definition calls_embedding_provider (ev : Event) : bool :=
  match ev with
  | EvFromDocuments _ _ | EvGetRelevantDocuments _ _ _ => true
  | _ => false
  end.

Definition calls_vector_database (ev : Event) : bool :=
  match ev with
  | EvFromExistingCollection _ | EvFromDocuments _ _
  | EvGetRelevantDocuments _ _ _ => true
  | _ => false
  end.

Definition calls_language_model (ev : Event) : bool :=
  match ev with
  | EvInvoke _ _ => true
  | _ => false
  end.

Definition is_provider_call (ev : Event) : bool :=
  calls_embedding_provider ev || calls_vector_database ev
  || calls_language_model ev.

(** Records written to the vector database by a run of events. *)
Definition records_written (evs : list Event) : nat :=
  sum_list (map (fun ev => match ev with
                           | EvFromDocuments chunks _ => length chunks
                           | _ => 0
                           end) evs).

(** ** HTTP bodies *)

Record SourceMeta := mkSourceMeta {
  meta_source : jsstring;
  meta_note : option jsstring;
  hasContent : bool
}.

Record SourceEntry := mkSourceEntry {
  entry_source : jsstring;
  snippet : jsstring
}.

Record AnswerResult := mkAnswerResult {
  text : option jsstring;
  sources : list SourceEntry
}.

Inductive Body :=
| ProcessBody (sessionId : jsstring) (chunks added : nat)
    (sourcesMeta : list SourceMeta)
| NoContentBody (error : jsstring) (notes : list (option jsstring))
| ErrorBody (error : jsstring)
| AnswerBody (result : AnswerResult).

Record Response := mkResponse { status : nat; body : Body }.

(** [res.json(b)] leaves the status at 200. *)
Definition json (b : Body) : Response := {| status := 200; body := b |}.

Record UploadedFile := mkFile {
  path : option jsstring;
  originalname : option jsstring
}.

Record ProcessRequest := mkProcessRequest {
  inlineText : option jsstring;
  youtubeUrl : option jsstring;
  file : option UploadedFile
}.

Record AskRequest := mkAskRequest {
  ask_sessionId : option jsstring;
  ask_query : option jsstring
}.

Record Session := mkSession { store : QdrantVectorStore }.

(** ** The process, its collaborators and the monad of [async] code *)

Section Model.

Variable Ext : Type.

(** The collaborators.  Each one reads and updates the outside world and
    either resolves or rejects. *)
Record Providers := mkProviders {
  (* [fs.access(path)] *)
  fs_access : jsstring -> Ext -> (Err + unit) * Ext;
  (* [new PDFLoader(path, { splitPages: false }).load()] *)
  pdf_load : jsstring -> Ext -> (Err + list Document) * Ext;
  (* [YoutubeLoader.createFromUrl(url, cfg).load()] *)
  youtube_load :
    jsstring -> YoutubeConfig -> Ext -> (Err + list Document) * Ext;
  (* [fs.unlink(path).catch(() => {})] *)
  fs_unlink : jsstring -> Ext -> Ext;
  (* [new RecursiveCharacterTextSplitter({ chunkSize, chunkOverlap })
        .splitDocuments(docs)], which touches nothing outside *)
  splitDocuments : nat -> nat -> list Document -> Err + list Document;
  (* [QdrantVectorStore.fromExistingCollection(embeddings, {client, name})] *)
  fromExistingCollection :
    jsstring -> Ext -> (Err + QdrantVectorStore) * Ext;
  (* [QdrantVectorStore.fromDocuments(chunks, embeddings, {client, name})] *)
  fromDocuments : list Document -> jsstring -> Ext -> (Err + unit) * Ext;
  (* [store.asRetriever(k).getRelevantDocuments(query)] *)
  getRelevantDocuments :
    QdrantVectorStore -> nat -> jsstring -> Ext
    -> (Err + list Document) * Ext;
  (* [llm.invoke(messages)] *)
  invoke : ChatOpenAI -> list ChatMessage -> Ext -> (Err + ResContent) * Ext;
  (* [Date.now()] *)
  Date_now : Ext -> N * Ext;
  (* [Math.random().toString(36)] *)
  Math_random_base36 : Ext -> jsstring * Ext
}.

(** The state of the running process: the outside world, the calls made so
    far, the [sessions] map and the cached [sharedStorePromise] (once
    created it stays, settled or rejected). *)
Record State := mkState {
  ext : Ext;
  trace : list Event;
  sessions : gmap jsstring Session;
  sharedStorePromise : option (Err + QdrantVectorStore)
}.

Definition M (A : Type) : Type := State -> (Err + A) * State.

Definition ret {A} (a : A) : M A := fun s => (inr a, s).

Definition throw {A} (e : Err) : M A := fun s => (inl e, s).

Definition bind {A B} (m : M A) (k : A -> M B) : M B :=
  fun s =>
    match m s with
    | (inl e, s') => (inl e, s')
    | (inr a, s') => k a s'
    end.

(** [try { ... } catch (e) { ... }] seen from outside: the outcome of the
    block as a value. *)
Definition attempt {A} (m : M A) : M (Err + A) :=
  fun s => let (r, s') := m s in (inr r, s').

Definition with_ext (s : State) (e : Ext) (evs : list Event) : State :=
  {| ext := e; trace := trace s ++ evs; sessions := sessions s;
     sharedStorePromise := sharedStorePromise s |}.

(** An awaited call to a collaborator. *)
Definition call {A} (ev : Event) (oracle : Ext -> (Err + A) * Ext) : M A :=
  fun s => let (r, e) := oracle (ext s) in (r, with_ext s e [ev]).

(** A call that is made and not awaited. *)
Definition fire (ev : Event) (oracle : Ext -> Ext) : M unit :=
  fun s => (inr tt, with_ext s (oracle (ext s)) [ev]).

(** A read of the clock or of the random source. *)
Definition sample {A} (oracle : Ext -> A * Ext) : M A :=
  fun s => let (a, e) := oracle (ext s) in (inr a, with_ext s e []).

(** [Promise.all([a, b, c])]: the three computations are all started; the
    model runs them in array order.  The result keeps array order and
    rejects with the first rejection. *)
Definition Promise_all3 {A} (a b c : M A) : M (list A) :=
  fun s =>
    let (ra, s1) := a s in
    let (rb, s2) := b s1 in
    let (rc, s3) := c s2 in
    match ra, rb, rc with
    | inr x, inr y, inr z => (inr [x; y; z], s3)
    | inl e, _, _ => (inl e, s3)
    | _, inl e, _ => (inl e, s3)
    | _, _, inl e => (inl e, s3)
    end.

End Model.

Arguments fs_access {Ext}.
Arguments pdf_load {Ext}.
Arguments youtube_load {Ext}.
Arguments fs_unlink {Ext}.
Arguments splitDocuments {Ext}.
Arguments fromExistingCollection {Ext}.
Arguments fromDocuments {Ext}.
Arguments getRelevantDocuments {Ext}.
Arguments invoke {Ext}.
Arguments Date_now {Ext}.
Arguments Math_random_base36 {Ext}.
Arguments mkState {Ext}.
Arguments ext {Ext}.
Arguments trace {Ext}.
Arguments sessions {Ext}.
Arguments sharedStorePromise {Ext}.
Arguments ret {Ext A}.
Arguments throw {Ext A}.
Arguments bind {Ext A B}.
Arguments attempt {Ext A}.
Arguments with_ext {Ext}.
Arguments call {Ext A}.
Arguments fire {Ext}.
Arguments sample {Ext A}.
Arguments Promise_all3 {Ext A}.

Notation "'let!' x ':=' m 'in' k" := (bind m (fun x => k))
  (at level 10, x name, m at level 100, k at level 200).

Notation "m1 ';;;' m2" := (bind m1 (fun _ => m2))
  (at level 100, m2 at level 200, right associativity).

(** ** The functions of [server.js] *)

Section Server.

Context {Ext : Type}.
Variable P : Providers Ext.
Variable env : Env.

Definition OPENAI_API_KEY : jsstring := or_else (env_OPENAI_API_KEY env) [].
Definition YT_LANGUAGE : jsstring := or_else (env_YT_LANGUAGE env) (lit "en").

Definition loadPdf (tempPath originalName : option jsstring)
    : M Ext (list Document) :=
  match tempPath with
  | Some (c :: rest) =>
      let tempPath := c :: rest in
      let! accessible :=
        attempt (call (EvAccess tempPath) (fs_access P tempPath)) in
      match accessible with
      | inl _ =>
          throw (new_Error
                   (lit "Uploaded file cannot be accessed at " ++ tempPath))
      | inr _ =>
          let! loaded :=
            attempt (call (EvPdfLoad tempPath) (pdf_load P tempPath)) in
          match loaded with
          | inr docs =>
              ret (map (fun doc =>
                          {| pageContent := pageContent doc;
                             metadata :=
                               Some {| source :=
                                         Some (or_else originalName
                                                 (lit "upload.pdf"));
                                       note := note_of doc |} |}) docs)
          | inl error =>
              ret [new_Document []
                     (or_else originalName (lit "upload.pdf"))
                     (Some (lit "Error processing PDF: "
                            ++ or_else (message error) (as_string error)))]
          end
      end
  | _ => ret []
  end.

(** [docs.map((d) => d.pageContent || "").join("\n").trim()] *)
Definition joined_text (docs : list Document) : jsstring :=
  trim (join LF (map content_of docs)).

Definition first_attempt_config : YoutubeConfig :=
  {| language := Some (lit "en");
     addVideoInfo := true;
     translation := Some (lit "en") |}.

Definition second_attempt_config : YoutubeConfig :=
  {| language := None; addVideoInfo := false; translation := None |}.

Definition loadYouTube (url : option jsstring) : M Ext (list Document) :=
  match url with
  | Some (c :: rest) =>
      let url := c :: rest in
      if negb (truthy (Some (trim url))) then ret [] else
      (* First attempt: with language hint *)
      let! first :=
        attempt (call (EvYoutubeLoad url first_attempt_config)
                   (youtube_load P url first_attempt_config)) in
      let text1 := match first with inr docs => joined_text docs
                                  | inl _ => [] end in
      if truthy (Some text1) then
        ret [new_Document text1 url
               (Some (lit "YouTube transcript loaded via LangChain (lang="
                      ++ YT_LANGUAGE ++ lit ")"))]
      else
      (* Second attempt: without language hint *)
      let! second :=
        attempt (call (EvYoutubeLoad url second_attempt_config)
                   (youtube_load P url second_attempt_config)) in
      let text2 := match second with inr docs => joined_text docs
                                   | inl _ => [] end in
      if truthy (Some text2) then
        ret [new_Document text2 url
               (Some (lit
                  "YouTube transcript loaded via LangChain (no lang hint)"))]
      else
      (* both attempts failed: a placeholder with a diagnostic note *)
      ret [new_Document [] url
             (Some (lit
   "No transcript available or failed to fetch via LangChain YoutubeLoader"))]
  | _ => ret []
  end.

Definition chunkDocs (docs : list Document)
    (chunkSize chunkOverlap : option nat) : M Ext (list Document) :=
  let chunkSize := default 800 chunkSize in
  let chunkOverlap := default 160 chunkOverlap in
  fun s =>
    (splitDocuments P chunkSize chunkOverlap docs,
     with_ext s (ext s) [EvSplitDocuments chunkSize chunkOverlap docs]).

Definition makeStore (name : jsstring) : M Ext QdrantVectorStore :=
  call (EvFromExistingCollection name) (fromExistingCollection P name).

Definition upsertChunks (chunks : option (list Document)) : M Ext nat :=
  match chunks with
  | None | Some [] => ret 0
  | Some chunks =>
      call (EvFromDocuments chunks COLLECTION_NAME)
        (fromDocuments P chunks COLLECTION_NAME) ;;;
      ret (length chunks)
  end.

Definition makeLLM : M Ext ChatOpenAI :=
  if negb (truthy (Some OPENAI_API_KEY)) then
    throw (new_Error (lit "Missing OPENAI_API_KEY"))
  else
    ret {| apiKey := OPENAI_API_KEY;
           model := lit "gpt-4o-mini";
           temperature := 2 # 10 |}.

(** [d.metadata?.source || "unknown"] *)
Definition source_or_unknown (d : Document) : jsstring :=
  or_else (source_of d) (lit "unknown").

(** The [context] of [answer]: [docs.map((d, i) => ...).join("\n\n")]. *)
Definition context_of (docs : list Document) : jsstring :=
  join (LF ++ LF)
    (imap (fun i d =>
             let body := slice 0 1200 (content_of d) in
             let src := source_or_unknown d in
             lit "# Doc " ++ of_nat (i + 1) ++ lit " (source: " ++ src
             ++ lit ")" ++ LF ++ body) docs).

Definition system_prompt : jsstring :=
  [240; 376; 8216; 8249]%N ++ lit " Hi! I" ++ [226; 8364; 8482]%N
  ++ lit "m your friendly RAG assistant. I" ++ [226; 8364; 8482]%N
  ++ lit "ll use only the provided context to help you quickly and clearly. "
  ++ lit "If the context isn" ++ [226; 8364; 8482]%N ++ lit "t enough, I"
  ++ [226; 8364; 8482]%N
  ++ lit "ll say so and suggest what to add. Keep answers short, practical, "
  ++ lit "and easy to act on. "
  ++ lit "Use light emojis when helpful (" ++ [226; 339; 8230]%N ++ lit ", "
  ++ [226; 353; 160; 239; 184]%N ++ lit "). No guesses.".

Definition user_prompt (context query : jsstring) : jsstring :=
  [240; 376; 8220; 353]%N ++ lit " Context:" ++ LF ++ context
  ++ LF ++ LF ++ [226; 8220]%N ++ lit " Question: " ++ query
  ++ LF ++ LF ++ [240; 376; 8217; 161]%N ++ lit " Answer:".

(** The text taken out of the model's reply. *)
Definition text_of (res : ResContent) : option jsstring :=
  match res with
  | ContentString s => Some s
  | ContentArray cs =>
      Some (join LF (map (fun c => match c with
                                   | FragString s => s
                                   | FragObject t => or_else t []
                                   end) cs))
  | ContentOther json => json
  end.

Definition sources_of (docs : list Document) : list SourceEntry :=
  map (fun d => {| entry_source := source_or_unknown d;
                   snippet := slice 0 200 (content_of d) |}) docs.

Definition answer (store : QdrantVectorStore) (query : jsstring)
    (k : option nat) : M Ext AnswerResult :=
  let k := default 5 k in
  let! docs :=
    call (EvGetRelevantDocuments store k query)
      (getRelevantDocuments P store k query) in
  let context := context_of docs in
  let! llm := makeLLM in
  let messages :=
    [ {| role := lit "system"; content := system_prompt |};
      {| role := lit "user"; content := user_prompt context query |} ] in
  let! res := call (EvInvoke llm messages) (invoke P llm messages) in
  let text := text_of res in
  let sources := sources_of docs in
  ret {| text := text; sources := sources |}.

(** *** Sessions *)

Definition newSessionId : M Ext jsstring :=
  let! now := sample (Date_now P) in
  let! rnd := sample (Math_random_base36 P) in
  ret (lit "s_" ++ of_N now ++ lit "_" ++ slice 2 8 rnd).

Definition sessions_set (id : jsstring) (sess : Session) : M Ext unit :=
  fun s =>
    (inr tt,
     {| ext := ext s; trace := trace s;
        sessions := <[id := sess]> (sessions s);
        sharedStorePromise := sharedStorePromise s |}).

(** [await getSharedStore()]: the promise is created on first use and kept,
    also when it rejects. *)
Definition getSharedStore : M Ext QdrantVectorStore :=
  fun s =>
    match sharedStorePromise s with
    | Some settled => (settled, s)
    | None =>
        let (r, s') := makeStore COLLECTION_NAME s in
        (r, {| ext := ext s'; trace := trace s'; sessions := sessions s';
               sharedStorePromise := Some r |})
    end.

(** *** Routes *)

(** [(d.pageContent || "").trim().length > 0] *)
Definition has_content (d : Document) : bool :=
  negb (Nat.eqb (length (trim (content_of d))) 0).

(** The three loaders of [/process], awaited together and flattened. *)
Definition load_parts (req : ProcessRequest) : M Ext (list Document) :=
  let! parts :=
    Promise_all3
      (ret (loadInline (inlineText req)))
      (match file req with
       | Some f => loadPdf (path f) (originalname f)
       | None => ret []
       end)
      (loadYouTube (youtubeUrl req)) in
  ret (concat parts).

Definition no_content_error : jsstring :=
  lit "No extractable content. Tips: add some Inline Text, use a text-based "
  ++ lit "PDF (not scanned), or a YouTube URL with captions.".

Definition process_try (req : ProcessRequest) : M Ext Response :=
  let! docs := load_parts req in
  match file req with
  | Some f =>
      fire (EvUnlink (or_else (path f) []))
        (fs_unlink P (or_else (path f) []))
  | None => ret tt
  end ;;;
  let hasAnyContent := existsb has_content docs in
  if negb hasAnyContent then
    let notes := List.filter truthy (map note_of docs) in
    ret {| status := 400; body := NoContentBody no_content_error notes |}
  else
    let! chunks := chunkDocs docs None None in
    let! store := getSharedStore in
    let! added := upsertChunks (Some chunks) in
    let! sessionId := newSessionId in
    sessions_set sessionId {| store := store |} ;;;
    let sourcesMeta :=
      map (fun d => {| meta_source := source_or_unknown d;
                       meta_note := if truthy (note_of d) then note_of d
                                    else None;
                       hasContent := truthy (Some (trim (content_of d))) |})
        docs in
    ret (json (ProcessBody sessionId (length chunks) added sourcesMeta)).

(** The handler of [POST /process], with its [catch]. *)
Definition process (req : ProcessRequest) (s : State Ext)
    : Response * State Ext :=
  match process_try req s with
  | (inr res, s') => (res, s')
  | (inl e, s') =>
      ({| status := 500;
          body := ErrorBody (or_else (message e) (lit "Failed to process")) |},
       s')
  end.

Definition ask_try (req : AskRequest) : M Ext Response :=
  if negb (truthy (ask_sessionId req)) || negb (truthy (ask_query req)) then
    ret {| status := 400;
           body := ErrorBody (lit "sessionId and query are required") |}
  else
    let sessionId := or_else (ask_sessionId req) [] in
    let query := or_else (ask_query req) [] in
    fun s =>
      match sessions s !! sessionId with
      | None =>
          (inr {| status := 404;
                  body := ErrorBody (lit "Invalid or expired sessionId") |}, s)
      | Some sess =>
          (let! result := answer (store sess) query None in
           ret (json (AnswerBody result))) s
      end.

(** The handler of [POST /ask], with its [catch]. *)
Definition ask (req : AskRequest) (s : State Ext) : Response * State Ext :=
  match ask_try req s with
  | (inr res, s') => (res, s')
  | (inl e, s') =>
      ({| status := 500;
          body := ErrorBody (or_else (message e) (lit "Failed to answer")) |},
       s')
  end.

End Server.

(** ** A small concrete world

    Collaborators over a world with no hidden state, used to run the server
    on concrete requests. *)

Module Demo.

Definition sky : Document :=
  new_Document (lit "The sky is blue.") (lit "inline") None.

Definition no_captions : Err := new_Error (lit "Transcript is disabled").

Definition quota : Err := new_Error (lit "429 You exceeded your quota").

(** Captions exist, but none in the hinted language. *)
Definition captions (url : jsstring) (cfg : YoutubeConfig)
    : Err + list Document :=
  match language cfg with
  | Some _ => inl no_captions
  | None =>
      inr [ {| pageContent := Some (lit "hello "); metadata := None |};
            {| pageContent := Some (lit "world"); metadata := None |} ]
  end.

(** A retriever over a fixed corpus that honours [k]. *)
Definition corpus : list Document :=
  [ sky;
    {| pageContent := Some (lit "Grass is green."); metadata := None |} ].

Definition providers : Providers unit :=
  {| fs_access := fun _ e => (inr tt, e);
     pdf_load := fun _ e => (inr [], e);
     youtube_load := fun url cfg e => (captions url cfg, e);
     fs_unlink := fun _ e => e;
     splitDocuments := fun _ _ docs => inr docs;
     fromExistingCollection :=
       fun name e => (inr {| collectionName := name |}, e);
     fromDocuments := fun _ _ e => (inr tt, e);
     getRelevantDocuments := fun _ k _ e => (inr (take k corpus), e);
     invoke := fun _ _ e => (inr (ContentString (lit "Blue.")), e);
     Date_now := fun e => (1700000000000%N, e);
     Math_random_base36 := fun e => (lit "0.4fzyo82mvyr", e) |}.

(** The same world with the embedding call of the retriever rejected. *)
Definition providers_retrieval_down : Providers unit :=
  {| fs_access := fs_access providers;
     pdf_load := pdf_load providers;
     youtube_load := youtube_load providers;
     fs_unlink := fs_unlink providers;
     splitDocuments := splitDocuments providers;
     fromExistingCollection := fromExistingCollection providers;
     fromDocuments := fromDocuments providers;
     getRelevantDocuments := fun _ _ _ e => (inl quota, e);
     invoke := invoke providers;
     Date_now := Date_now providers;
     Math_random_base36 := Math_random_base36 providers |}.

(** The same world with no captions at all. *)
Definition providers_no_captions : Providers unit :=
  {| fs_access := fs_access providers;
     pdf_load := pdf_load providers;
     youtube_load := fun _ _ e => (inl no_captions, e);
     fs_unlink := fs_unlink providers;
     splitDocuments := splitDocuments providers;
     fromExistingCollection := fromExistingCollection providers;
     fromDocuments := fromDocuments providers;
     getRelevantDocuments := getRelevantDocuments providers;
     invoke := invoke providers;
     Date_now := Date_now providers;
     Math_random_base36 := Math_random_base36 providers |}.

Definition env_with_key : Env :=
  {| env_OPENAI_API_KEY := Some (lit "sk-test"); env_YT_LANGUAGE := None |}.

Definition env_without_key : Env :=
  {| env_OPENAI_API_KEY := None; env_YT_LANGUAGE := None |}.

Definition env_french : Env :=
  {| env_OPENAI_API_KEY := Some (lit "sk-test");
     env_YT_LANGUAGE := Some (lit "fr") |}.

Definition fresh : State unit :=
  {| ext := tt; trace := []; sessions := ∅; sharedStorePromise := None |}.

Definition shared : QdrantVectorStore :=
  {| collectionName := COLLECTION_NAME |}.

Definition video : jsstring := lit "https://youtu.be/dQw4w9WgXcQ".

(** The same world where captions are served for the hint ["en"] only. *)
Definition providers_english_captions : Providers unit :=
  {| fs_access := fs_access providers;
     pdf_load := pdf_load providers;
     youtube_load := fun _ cfg e =>
       (if bool_decide (language cfg = Some (lit "en"))
        then inr [ {| pageContent := Some (lit "hello"); metadata := None |} ]
        else inl no_captions, e);
     fs_unlink := fs_unlink providers;
     splitDocuments := splitDocuments providers;
     fromExistingCollection := fromExistingCollection providers;
     fromDocuments := fromDocuments providers;
     getRelevantDocuments := getRelevantDocuments providers;
     invoke := invoke providers;
     Date_now := Date_now providers;
     Math_random_base36 := Math_random_base36 providers |}.

Definition sky_request : ProcessRequest :=
  {| inlineText := Some (lit "The sky is blue.");
     youtubeUrl := None;
     file := None |}.

Definition video_request : ProcessRequest :=
  {| inlineText := None; youtubeUrl := Some video; file := None |}.

Definition sky_session : jsstring := lit "s_1700000000000_4fzyo8".

(** The process after [sky_request] was ingested into [fresh]. *)
Definition after_sky : State unit :=
  {| ext := tt;
     trace := [ EvSplitDocuments 800 160 [sky];
                EvFromExistingCollection COLLECTION_NAME;
                EvFromDocuments [sky] COLLECTION_NAME ];
     sessions := <[sky_session := {| store := shared |}]> ∅;
     sharedStorePromise := Some (inr shared) |}.

End Demo.

(** ** More concrete worlds *)

Module Demo2.

(** The world of [Demo.providers] with a given fate for uploads. *)
Definition with_upload (access : Err + unit) (load : Err + list Document)
    : Providers unit :=
  {| fs_access := fun _ e => (access, e);
     pdf_load := fun _ e => (load, e);
     youtube_load := youtube_load Demo.providers;
     fs_unlink := fs_unlink Demo.providers;
     splitDocuments := splitDocuments Demo.providers;
     fromExistingCollection := fromExistingCollection Demo.providers;
     fromDocuments := fromDocuments Demo.providers;
     getRelevantDocuments := getRelevantDocuments Demo.providers;
     invoke := invoke Demo.providers;
     Date_now := Date_now Demo.providers;
     Math_random_base36 := Math_random_base36 Demo.providers |}.

Definition enoent : Err :=
  new_Error (lit "ENOENT: no such file or directory").

Definition encrypted : Err := new_Error (lit "Encrypted PDF").

Definition page : Document :=
  {| pageContent := Some (lit "Water is wet.");
     metadata :=
       Some {| source := Some (lit "uploads/3f9a"); note := None |} |}.

Definition tmp : jsstring := lit "uploads/3f9a".

Definition upload : UploadedFile :=
  {| path := Some tmp; originalname := Some (lit "notes.pdf") |}.

Definition upload_request : ProcessRequest :=
  {| inlineText := None; youtubeUrl := None; file := Some upload |}.

(** The world of [Demo.providers] with a given fate for the connection to
    the collection and for writes to it. *)
Definition with_qdrant (connect : Err + QdrantVectorStore)
    (write : Err + unit) : Providers unit :=
  {| fs_access := fs_access Demo.providers;
     pdf_load := pdf_load Demo.providers;
     youtube_load := youtube_load Demo.providers;
     fs_unlink := fs_unlink Demo.providers;
     splitDocuments := splitDocuments Demo.providers;
     fromExistingCollection := fun _ e => (connect, e);
     fromDocuments := fun _ _ e => (write, e);
     getRelevantDocuments := getRelevantDocuments Demo.providers;
     invoke := invoke Demo.providers;
     Date_now := Date_now Demo.providers;
     Math_random_base36 := Math_random_base36 Demo.providers |}.

Definition refused : Err :=
  new_Error (lit "connect ECONNREFUSED 127.0.0.1:6333").

(** The world of [Demo.providers] with a given reply of the language
    model. *)
Definition with_reply (reply : Err + ResContent) : Providers unit :=
  {| fs_access := fs_access Demo.providers;
     pdf_load := pdf_load Demo.providers;
     youtube_load := youtube_load Demo.providers;
     fs_unlink := fs_unlink Demo.providers;
     splitDocuments := splitDocuments Demo.providers;
     fromExistingCollection := fromExistingCollection Demo.providers;
     fromDocuments := fromDocuments Demo.providers;
     getRelevantDocuments := getRelevantDocuments Demo.providers;
     invoke := fun _ _ e => (reply, e);
     Date_now := Date_now Demo.providers;
     Math_random_base36 := Math_random_base36 Demo.providers |}.

Definition sky_question : jsstring := lit "What color is the sky?".

Definition sky_ask : AskRequest :=
  {| ask_sessionId := Some Demo.sky_session;
     ask_query := Some sky_question |}.

(** A process whose first connection to the collection was refused. *)
Definition after_refusal : State unit :=
  {| ext := tt;
     trace := [ EvSplitDocuments 800 160 [Demo.sky];
                EvFromExistingCollection COLLECTION_NAME ];
     sessions := ∅;
     sharedStorePromise := Some (inl refused) |}.

End Demo2.

(** ** The specification's vocabulary

    Notions the specification uses, written after its words, against which
    the functions above are compared. *)

(** Text that is only white space. *)
Definition blank (s : jsstring) : bool := forallb is_white_space s.

(** Inline text that is absent, or blank after trimming. *)
Definition absent_or_blank (text : option jsstring) : Prop :=
  match text with
  | None => True
  | Some t => trim t = []
  end.

(** The missing-credential error. *)
Definition missing_key : Err := new_Error (lit "Missing OPENAI_API_KEY").

(** [answer] fails with the missing-credential error and calls no provider
    on the way. *)
Definition fails_before_any_call {Ext : Type} (P : Providers Ext) (env : Env)
    (store : QdrantVectorStore) (query : jsstring) (s : State Ext) : Prop :=
  exists s',
    answer P env store query None s = (inl missing_key, s')
    /\ forall evs, trace s' = trace s ++ evs ->
         forallb (fun ev => negb (is_provider_call ev)) evs = true.

(** The label [Doc <i> (source: <source>)] of a context block. *)
Definition doc_label (i : nat) (src : jsstring) : jsstring :=
  lit "Doc " ++ of_nat i ++ lit " (source: " ++ src ++ lit ")".

(** A context block: a heading line carrying the label, then the chunk's
    content cut to at most 1200 code units. *)
Definition context_block (i : nat) (d : Document) : jsstring :=
  lit "# " ++ doc_label i (source_or_unknown d) ++ LF
  ++ take 1200 (content_of d).

(** The blocks of the chunks numbered from [i] on, in order, with a blank
    line between neighbours. *)
Fixpoint context_from (i : nat) (chunks : list Document) : jsstring :=
  match chunks with
  | [] => []
  | [d] => context_block i d
  | d :: rest => context_block i d ++ LF ++ LF ++ context_from (S i) rest
  end.

(** The vector index returns at most [k] chunks to a top-[k] query. *)
Definition retriever_respects_k {Ext : Type} (P : Providers Ext) : Prop :=
  forall store k query e docs e',
    getRelevantDocuments P store k query e = (inr docs, e') ->
    length docs <= k.

(** The cited source of a retrieved chunk: its metadata source, and a
    snippet made of the first 200 code units of its content. *)
Definition cites (entry : SourceEntry) (d : Document) : Prop :=
  (forall src, source_of d = Some src -> src <> [] -> entry_source entry = src)
  /\ (truthy (source_of d) = false -> entry_source entry = lit "unknown")
  /\ snippet entry = take 200 (content_of d).


(** Calls of the ingest pipeline proper: chunking, connecting to the
    collection and writing to it. *)
Definition is_ingest_step (ev : Event) : bool :=
  match ev with
  | EvSplitDocuments _ _ _ | EvFromExistingCollection _
  | EvFromDocuments _ _ => true
  | _ => false
  end.

(** Calls made by the loaders of the source normaliser. *)
Definition is_load_step (ev : Event) : bool :=
  match ev with
  | EvAccess _ | EvPdfLoad _ | EvYoutubeLoad _ _ => true
  | _ => false
  end.

(** From [s] to [s'] only loader calls were made: the sessions and the
    shared store are untouched. *)
Definition only_loads {Ext : Type} (s s' : State Ext) : Prop :=
  sessions s' = sessions s
  /\ sharedStorePromise s' = sharedStorePromise s
  /\ exists evs, trace s' = trace s ++ evs
       /\ forallb is_load_step evs = true.

(** All notes that are present on the documents, in order. *)
Definition non_null_notes (docs : list Document) : list jsstring :=
  omap note_of docs.

(** The PDF loader attaches no empty note to the documents it extracts. *)
Definition pdf_notes_nonempty {Ext : Type} (P : Providers Ext) : Prop :=
  forall path e docs e',
    pdf_load P path e = (inr docs, e') ->
    Forall (fun d => note_of d <> Some []) docs.

(** The state in which [/process] leaves the loaders' state [s1]: the
    uploaded file, if any, has been unlinked. *)
Definition after_unlink {Ext : Type} (P : Providers Ext)
    (req : ProcessRequest) (s1 : State Ext) : State Ext :=
  match file req with
  | Some f =>
      with_ext s1 (fs_unlink P (or_else (path f) []) (ext s1))
        [EvUnlink (or_else (path f) [])]
  | None => s1
  end.

(** The calls made between two states of the same run. *)
Definition new_events {Ext : Type} (s s' : State Ext) : list Event :=
  drop (length (trace s)) (trace s').

(** The source every document of an upload is given. *)
Definition upload_source (originalName : option jsstring) : jsstring :=
  or_else originalName (lit "upload.pdf").

(** An uploaded document keeps what the PDF loader extracted, under the
    upload's name. *)
Definition renamed_from (originalName : option jsstring)
    (out loaded : Document) : Prop :=
  pageContent out = pageContent loaded
  /\ note_of out = note_of loaded
  /\ source_of out = Some (upload_source originalName).

(** From [s] to [s'] the calls [evs] were made and the session registry was
    left alone. *)
Definition advances {Ext : Type} (s s' : State Ext) (evs : list Event)
    : Prop :=
  sessions s' = sessions s /\ trace s' = trace s ++ evs.

(** The body of a 500 response of [/process] for a caught error. *)
Definition process_failed (e : Err) : Response :=
  {| status := 500;
     body := ErrorBody (or_else (message e) (lit "Failed to process")) |}.

(** The body of a 500 response of [/ask] for a caught error. *)
Definition ask_failed (e : Err) : Response :=
  {| status := 500;
     body := ErrorBody (or_else (message e) (lit "Failed to answer")) |}.

(** The entry of [sources] in a successful [/process] response. *)
Definition source_meta (d : Document) : SourceMeta :=
  {| meta_source := source_or_unknown d;
     meta_note := if truthy (note_of d) then note_of d else None;
     hasContent := truthy (Some (trim (content_of d))) |}.

(** Every session of the registry is bound to the store the process has
    cached. *)
Definition registry_shared {Ext : Type} (s : State Ext) : Prop :=
  forall sid sess,
    sessions s !! sid = Some sess ->
    sharedStorePromise s = Some (inr (store sess)).

(** The calls [/process] makes once its loaders have resolved to [docs] and
    the splitter has returned [cs], starting from a process whose shared
    store is [cached]: the upload is unlinked, the documents are split, the
    collection is connected to on first use, and the chunks, if any, are
    written. *)
Definition ingest_calls (req : ProcessRequest)
    (cached : option (Err + QdrantVectorStore))
    (docs cs : list Document) : list Event :=
  match file req with
  | Some f => [EvUnlink (or_else (path f) [])]
  | None => []
  end
  ++ [EvSplitDocuments 800 160 docs]
  ++ match cached with
     | Some _ => []
     | None => [EvFromExistingCollection COLLECTION_NAME]
     end
  ++ match cs with
     | [] => []
     | _ :: _ => [EvFromDocuments cs COLLECTION_NAME]
     end.

(** A decimal digit, as a code unit. *)
Definition is_digit (c : N) : bool := ((48 <=? c) && (c <=? 57))%N.

(** A caption fetch for [url]. *)
Definition is_caption_fetch (url : jsstring) (ev : Event) : bool :=
  match ev with
  | EvYoutubeLoad u _ => bool_decide (u = url)
  | _ => false
  end.

(** Nothing usable was supplied: no text, no upload, no video. *)
Definition nothing_supplied (req : ProcessRequest) : Prop :=
  absent_or_blank (inlineText req)
  /\ file req = None
  /\ absent_or_blank (youtubeUrl req).

(** * Properties *)

(** ** Facts about [trim] *)

Section TrimFacts.

Lemma trimStart_nil_iff (s : jsstring) : trimStart s = [] <-> blank s = true.
Proof.
  induction s as [|c rest IH]; simpl; [tauto|].
  destruct (is_white_space c); simpl; [exact IH|].
  split; intros H; discriminate H.
Qed.

Lemma trimStart_head (s : jsstring) c rest :
  trimStart s = c :: rest -> is_white_space c = false.
Proof.
  induction s as [|a s IH]; simpl; [discriminate|].
  destruct (is_white_space a) eqn:Ha; [exact IH|].
  intros [= <- _]. exact Ha.
Qed.

Lemma blank_reverse (s : jsstring) : blank (reverse s) = blank s.
Proof.
  unfold blank. induction s as [|c rest IH]; [reflexivity|].
  rewrite reverse_cons, forallb_app, IH. simpl.
  rewrite andb_true_r. apply andb_comm.
Qed.

Lemma trim_nil_iff (s : jsstring) : trim s = [] <-> blank s = true.
Proof.
  unfold trim, trimEnd. rewrite <- trimStart_nil_iff.
  split.
  - intros H. apply (f_equal reverse) in H. rewrite reverse_involutive in H.
    simpl in H. apply trimStart_nil_iff in H. rewrite blank_reverse in H.
    destruct (trimStart s) as [|c rest] eqn:E; [reflexivity|].
    apply trimStart_head in E. simpl in H. rewrite E in H. discriminate H.
  - intros ->. reflexivity.
Qed.

End TrimFacts.

(** C2.  Inline text that is absent, or blank once trimmed, yields no
    document; any other text yields exactly one document, whose content is
    the text verbatim and whose metadata source is ["inline"].  Blank once
    trimmed is the same as consisting of white space only. *)
Theorem loadInline_spec (text : option jsstring) :
  (absent_or_blank text -> loadInline text = [])
  /\ (forall t, text = Some t -> trim t = [] <-> blank t = true)
  /\ (forall t, text = Some t -> trim t <> [] ->
       exists d, loadInline text = [d]
         /\ pageContent d = Some t
         /\ source_of d = Some (lit "inline")
         /\ note_of d = None).
Proof.
  split; [|split].
  - destruct text as [t|]; [|reflexivity].
    simpl. intros H. rewrite H. destruct t; reflexivity.
  - intros t _. apply trim_nil_iff.
  - intros t -> H. unfold loadInline.
    destruct t as [|c rest]; [exfalso; apply H; reflexivity|].
    destruct (trim (c :: rest)) as [|c' rest'] eqn:Et; [congruence|].
    simpl. eexists. split; [reflexivity|]. repeat split.
Qed.

Lemma loadInline_spec_witness :
  loadInline (Some (lit "  ")) = []
  /\ exists d, loadInline (Some (lit " The sky is blue. ")) = [d]
       /\ pageContent d = Some (lit " The sky is blue. ")
       /\ source_of d = Some (lit "inline")
       /\ note_of d = None.
Proof.
  split.
  - apply (proj1 (loadInline_spec (Some (lit "  ")))). reflexivity.
  - apply (proj2 (proj2 (loadInline_spec (Some (lit " The sky is blue. "))))
             (lit " The sky is blue. ") eq_refl).
    vm_compute. discriminate.
Defined.

(** ** Running the monad *)

Section Run.

Context {Ext : Type}.

Lemma call_eq {A} ev (oracle : Ext -> (Err + A) * Ext) s :
  call ev oracle s
  = (fst (oracle (ext s)), with_ext s (snd (oracle (ext s))) [ev]).
Proof. unfold call. destruct (oracle (ext s)). reflexivity. Qed.

Lemma attempt_call_eq {A} ev (oracle : Ext -> (Err + A) * Ext) s :
  attempt (call ev oracle) s
  = (inr (fst (oracle (ext s))), with_ext s (snd (oracle (ext s))) [ev]).
Proof. unfold attempt. rewrite call_eq. reflexivity. Qed.

Lemma with_ext_trace (s : State Ext) e evs :
  trace (with_ext s e evs) = trace s ++ evs.
Proof. reflexivity. Qed.

Lemma with_ext_with_ext (s : State Ext) e1 evs1 e2 evs2 :
  with_ext (with_ext s e1 evs1) e2 evs2 = with_ext s e2 (evs1 ++ evs2).
Proof. unfold with_ext. simpl. rewrite app_assoc. reflexivity. Qed.

End Run.

(** ** The answer operation *)

Section Answer.

Context {Ext : Type}.
Variable P : Providers Ext.
Variable env : Env.

Lemma makeLLM_missing (s : State Ext) :
  truthy (env_OPENAI_API_KEY env) = false ->
  makeLLM env s = (inl missing_key, s).
Proof.
  intros H. unfold makeLLM, OPENAI_API_KEY.
  destruct (env_OPENAI_API_KEY env) as [[|c rest]|]; try discriminate H;
    reflexivity.
Qed.

(** C1, as amended.  With the credential missing, [answer] first makes its
    retrieval call (one call, which embeds the query and searches the
    collection); when that call rejects, its error is what [answer] throws;
    when it resolves, [answer] throws the missing-credential error.  The
    language model is not invoked either way. *)
Theorem answer_missing_key (store : QdrantVectorStore) (query : jsstring)
    (k : option nat) (s : State Ext) :
  truthy (env_OPENAI_API_KEY env) = false ->
  let retrieval := EvGetRelevantDocuments store (default 5 k) query in
  let outcome := getRelevantDocuments P store (default 5 k) query (ext s) in
  answer P env store query k s
  = (match fst outcome with
     | inl e => inl e
     | inr _ => inl missing_key
     end,
     with_ext s (snd outcome) [retrieval])
  /\ calls_language_model retrieval = false
  /\ calls_embedding_provider retrieval = true
  /\ calls_vector_database retrieval = true.
Proof.
  intros Hkey retrieval outcome. split; [|repeat split].
  unfold answer, bind. rewrite call_eq. fold outcome. fold retrieval.
  destruct (fst outcome) as [e|docs]; [reflexivity|].
  rewrite (makeLLM_missing _ Hkey). reflexivity.
Qed.

End Answer.

Lemma answer_missing_key_witness :
  answer Demo.providers Demo.env_without_key Demo.shared
    (lit "What color is the sky?") None Demo.fresh
  = (inl missing_key,
     with_ext Demo.fresh tt
       [EvGetRelevantDocuments Demo.shared 5 (lit "What color is the sky?")]).
Proof.
  apply (answer_missing_key Demo.providers Demo.env_without_key Demo.shared
           (lit "What color is the sky?") None Demo.fresh).
  reflexivity.
Defined.

(** C1 fails on the code: with the credential missing, retrieval is called
    before the check (first conjunct), and when retrieval itself rejects the
    error thrown is not the missing-credential one (second conjunct). *)
Lemma answer_missing_key_counterexample :
  ~ fails_before_any_call Demo.providers Demo.env_without_key Demo.shared
      (lit "What color is the sky?") Demo.fresh
  /\ ~ fails_before_any_call Demo.providers_retrieval_down
         Demo.env_without_key Demo.shared (lit "What color is the sky?")
         Demo.fresh.
Proof.
  split.
  - intros [s' [Hrun Hquiet]].
    vm_compute in Hrun. injection Hrun as <-.
    specialize (Hquiet _ eq_refl). vm_compute in Hquiet. discriminate Hquiet.
  - intros [s' [Hrun _]]. vm_compute in Hrun. discriminate Hrun.
Qed.

(** ** Prompt context and cited sources *)

Section Prompt.

Lemma slice_0 (n : nat) (s : jsstring) : slice 0 n s = take n s.
Proof. reflexivity. Qed.

Lemma context_block_eq (i : nat) (d : Document) :
  lit "# Doc " ++ of_nat (i + 1) ++ lit " (source: " ++ source_or_unknown d
  ++ lit ")" ++ LF ++ slice 0 1200 (content_of d)
  = context_block (S i) d.
Proof.
  unfold context_block, doc_label. rewrite slice_0, Nat.add_1_r.
  rewrite <- !app_assoc. reflexivity.
Qed.

Lemma context_of_blocks (docs : list Document) :
  context_of docs
  = join (LF ++ LF) (imap (fun i d => context_block (S i) d) docs).
Proof.
  unfold context_of. f_equal. apply imap_ext. intros i d _.
  apply context_block_eq.
Qed.

Lemma join_blocks_from (n : nat) (docs : list Document) :
  join (LF ++ LF) (imap (fun i d => context_block (S (n + i)) d) docs)
  = context_from (S n) docs.
Proof.
  revert n. induction docs as [|d rest IH]; intros n; [reflexivity|].
  rewrite imap_cons. rewrite Nat.add_0_r.
  destruct rest as [|d' rest']; [reflexivity|].
  change (context_from (S n) (d :: d' :: rest'))
    with (context_block (S n) d ++ LF ++ LF
          ++ context_from (S (S n)) (d' :: rest')).
  rewrite <- (IH (S n)).
  set (tail := imap _ (d' :: rest')).
  assert (Htail : tail = imap (fun i d0 => context_block (S (S n + i)) d0)
                           (d' :: rest')).
  { apply imap_ext. intros i x _. simpl. f_equal. lia. }
  rewrite <- Htail. unfold tail. rewrite imap_cons. simpl.
  rewrite <- !app_assoc. reflexivity.
Qed.

(** C7.  The context assembled from the retrieved chunks is their blocks
    joined by blank lines: one block per chunk, in retrieval order, numbered
    from 1; block [i] is the heading [# Doc <i> (source: <source>)], a line
    break, and the chunk's content cut to its first 1200 code units (the
    whole content when it is shorter).  A chunk without a source is labelled
    [unknown]. *)
Theorem context_of_spec (docs : list Document) :
  context_of docs = context_from 1 docs
  /\ exists blocks,
       context_of docs = join (LF ++ LF) blocks
       /\ length blocks = length docs
       /\ forall i d, docs !! i = Some d ->
            exists body,
              blocks !! i
              = Some (lit "# " ++ doc_label (i + 1) (source_or_unknown d)
                      ++ LF ++ body)
              /\ body = take 1200 (content_of d)
              /\ length body <= 1200
              /\ body `prefix_of` content_of d
              /\ (length (content_of d) <= 1200 -> body = content_of d)
              /\ (forall src, source_of d = Some src -> src <> [] ->
                  source_or_unknown d = src).
Proof.
  split.
  - rewrite context_of_blocks. apply (join_blocks_from 0).
  - exists (imap (fun i d => context_block (S i) d) docs).
    split; [apply context_of_blocks|]. split; [apply length_imap|].
    intros i d Hd. exists (take 1200 (content_of d)).
    split; [|split; [reflexivity|split; [|split; [|split]]]].
    + rewrite list_lookup_imap, Hd. simpl. rewrite Nat.add_1_r. reflexivity.
    + rewrite length_take. lia.
    + apply prefix_take.
    + intros Hlen. apply take_ge. exact Hlen.
    + intros src Hsrc Hne. unfold source_or_unknown. rewrite Hsrc.
      destruct src; [contradiction|reflexivity].
Qed.

Lemma context_of_spec_witness :
  context_of Demo.corpus
  = lit "# Doc 1 (source: inline)" ++ LF ++ lit "The sky is blue."
    ++ LF ++ LF
    ++ lit "# Doc 2 (source: unknown)" ++ LF ++ lit "Grass is green."
  /\ exists blocks,
       context_of Demo.corpus = join (LF ++ LF) blocks
       /\ length blocks = 2
       /\ blocks !! 0
          = Some (lit "# Doc 1 (source: inline)" ++ LF
                  ++ lit "The sky is blue.").
Proof.
  destruct (context_of_spec Demo.corpus)
    as (Hctx & blocks & Hjoin & Hlen & Hblock).
  split; [rewrite Hctx; reflexivity|].
  exists blocks. split; [exact Hjoin|]. split; [exact Hlen|].
  destruct (Hblock 0 Demo.sky eq_refl) as (body & Hlookup & -> & _).
  exact Hlookup.
Defined.

Lemma sources_of_cites (docs : list Document) :
  Forall2 cites (sources_of docs) docs.
Proof.
  unfold sources_of. induction docs as [|d rest IH]; simpl; constructor;
    [|exact IH].
  unfold cites, source_or_unknown. simpl. repeat split.
  - intros src -> Hne. destruct src; [contradiction|reflexivity].
  - intros H. destruct (source_of d) as [[|c r]|]; try discriminate H;
      reflexivity.
Qed.

Lemma answer_ok_inv {Ext : Type} (P : Providers Ext) (env : Env)
    (store : QdrantVectorStore) (query : jsstring) (k : option nat)
    (s s' : State Ext) (r : AnswerResult) :
  answer P env store query k s = (inr r, s') ->
  exists docs e,
    getRelevantDocuments P store (default 5 k) query (ext s) = (inr docs, e)
    /\ sources r = sources_of docs.
Proof.
  unfold answer, bind. rewrite call_eq.
  destruct (getRelevantDocuments P store (default 5 k) query (ext s))
    as [[e|docs] e1] eqn:Hret; simpl; [discriminate|].
  destruct (makeLLM env _) as [[e|llm] s1]; [discriminate|].
  rewrite call_eq. destruct (fst (invoke P llm _ _)); [discriminate|].
  intros [= <- _]. exists docs, e1. split; reflexivity.
Qed.

(** C8.  When [answer] returns, called without [k] (so with the default 5),
    its [sources] cite the retrieved chunks one for one, in retrieval order
    and without merging duplicates: entry [i] carries the source of chunk
    [i] and the first 200 code units of its content.  Every snippet has at
    most 200 code units, and over an index that returns at most [k] chunks
    to a top-[k] query there are at most 5 entries. *)
Theorem answer_sources {Ext : Type} (P : Providers Ext) (env : Env)
    (store : QdrantVectorStore) (query : jsstring) (s s' : State Ext)
    (r : AnswerResult) :
  retriever_respects_k P ->
  answer P env store query None s = (inr r, s') ->
  exists docs e,
    getRelevantDocuments P store 5 query (ext s) = (inr docs, e)
    /\ Forall2 cites (sources r) docs
    /\ length (sources r) = length docs
    /\ length (sources r) <= 5
    /\ Forall (fun entry => length (snippet entry) <= 200) (sources r).
Proof.
  intros Hk Hrun. apply answer_ok_inv in Hrun as (docs & e & Hret & ->).
  exists docs, e. simpl in Hret. split; [exact Hret|].
  split; [apply sources_of_cites|].
  assert (Hlen : length (sources_of docs) = length docs)
    by (unfold sources_of; apply length_map).
  split; [exact Hlen|]. split.
  - rewrite Hlen. exact (Hk _ _ _ _ _ _ Hret).
  - unfold sources_of. apply Forall_map, Forall_forall. intros d _. simpl.
    rewrite slice_0, length_take. lia.
Qed.

End Prompt.

Lemma demo_respects_k : retriever_respects_k Demo.providers.
Proof.
  intros store k query e docs e' [= <- _]. rewrite length_take. lia.
Defined.

Lemma answer_sources_witness :
  exists docs e,
    getRelevantDocuments Demo.providers Demo.shared 5
      (lit "What color is the sky?") tt = (inr docs, e)
    /\ Forall2 cites
         [ {| entry_source := lit "inline";
              snippet := lit "The sky is blue." |};
           {| entry_source := lit "unknown";
              snippet := lit "Grass is green." |} ]
         docs
    /\ 2 = length docs
    /\ 2 <= 5
    /\ Forall (fun entry => length (snippet entry) <= 200)
         [ {| entry_source := lit "inline";
              snippet := lit "The sky is blue." |};
           {| entry_source := lit "unknown";
              snippet := lit "Grass is green." |} ].
Proof.
  apply (answer_sources Demo.providers Demo.env_with_key Demo.shared
           (lit "What color is the sky?") Demo.fresh
           (with_ext (with_ext Demo.fresh tt
              [EvGetRelevantDocuments Demo.shared 5
                 (lit "What color is the sky?")]) tt
              [EvInvoke
                 {| apiKey := lit "sk-test"; model := lit "gpt-4o-mini";
                    temperature := 2 # 10 |}
                 [ {| role := lit "system"; content := system_prompt |};
                   {| role := lit "user";
                      content := user_prompt (context_of Demo.corpus)
                                   (lit "What color is the sky?") |} ]])
           {| text := Some (lit "Blue.");
              sources :=
                [ {| entry_source := lit "inline";
                     snippet := lit "The sky is blue." |};
                  {| entry_source := lit "unknown";
                     snippet := lit "Grass is green." |} ] |}).
  - exact demo_respects_k.
  - reflexivity.
Defined.

(** ** The index gateway *)

Section Upsert.

Context {Ext : Type}.
Variable P : Providers Ext.

Lemma upsertChunks_nonempty (c : Document) (cs : list Document)
    (s : State Ext) :
  let write := fromDocuments P (c :: cs) COLLECTION_NAME (ext s) in
  upsertChunks P (Some (c :: cs)) s
  = (match fst write with
     | inl e => inl e
     | inr _ => inr (length (c :: cs))
     end,
     with_ext s (snd write) [EvFromDocuments (c :: cs) COLLECTION_NAME]).
Proof.
  intros write. unfold upsertChunks, bind. rewrite call_eq. fold write.
  destruct (fst write); reflexivity.
Qed.

Lemma upsertChunks_returns_length (chunks : option (list Document))
    (s s' : State Ext) (n : nat) :
  upsertChunks P chunks s = (inr n, s') -> n = length (default [] chunks).
Proof.
  destruct chunks as [[|c cs]|]; try (intros [= <- _]; reflexivity).
  rewrite upsertChunks_nonempty.
  destruct (fst (fromDocuments P (c :: cs) COLLECTION_NAME (ext s)));
    [discriminate|].
  intros [= <- _]. reflexivity.
Qed.


End Upsert.

(** ** The routes *)

Section Routes.

Context {Ext : Type}.
Variable P : Providers Ext.
Variable env : Env.

(** C10.  A successful ingest response reports [added] equal to [chunks]:
    both are the length of the chunk list the splitter returned, whatever
    the write to the vector database did with it. *)
Theorem process_added_eq_chunks (req : ProcessRequest) (s s' : State Ext)
    (st : nat) (sessionId : jsstring) (chunks added : nat)
    (sourcesMeta : list SourceMeta) :
  process P env req s
  = ({| status := st; body := ProcessBody sessionId chunks added sourcesMeta |},
     s') ->
  added = chunks
  /\ exists docs cs,
       splitDocuments P 800 160 docs = inr cs /\ chunks = length cs.
Proof.
  unfold process.
  destruct (process_try P env req s) as [[e|res] s1] eqn:Hrun;
    [discriminate|].
  intros [= -> ->]. revert Hrun. unfold process_try, bind.
  destruct (load_parts P env req s) as [[e|docs] s2]; [discriminate|].
  set (s3 := match file req with
             | Some f =>
                 with_ext s2 (fs_unlink P (or_else (path f) []) (ext s2))
                   [EvUnlink (or_else (path f) [])]
             | None => s2
             end).
  replace (match file req with Some f => _ | None => _ end s2)
    with (@inr Err unit tt, s3)
    by (unfold s3; destruct (file req); reflexivity).
  destruct (negb (existsb has_content docs)); [discriminate|].
  unfold chunkDocs. change (default 800 None) with 800.
  change (default 160 None) with 160. cbv zeta.
  destruct (splitDocuments P 800 160 docs) as [e|cs] eqn:Hsplit;
    [discriminate|].
  destruct (getSharedStore P _) as [[e|store] s4]; [discriminate|].
  destruct (upsertChunks P (Some cs) s4) as [[e|n] s5] eqn:Hup;
    [discriminate|].
  apply upsertChunks_returns_length in Hup. simpl in Hup. subst n.
  destruct (newSessionId P s5) as [[e|sid] s6]; [discriminate|].
  simpl. intros [= <- <- <- <-]. split; [reflexivity|].
  exists docs, cs. auto.
Qed.

(** C9.  An ask request without a session id or without a query (absent
    or empty) is answered 400; one with both whose session id is not in the
    registry is answered 404.  In both cases the process state is left as
    it was, so nothing was called: no embedding, no vector search, no
    language model. *)
Theorem ask_spec (req : AskRequest) (s : State Ext) :
  (truthy (ask_sessionId req) = false \/ truthy (ask_query req) = false ->
   ask P env req s
   = ({| status := 400;
         body := ErrorBody (lit "sessionId and query are required") |}, s))
  /\ (forall sid,
        ask_sessionId req = Some sid -> sid <> [] ->
        truthy (ask_query req) = true ->
        sessions s !! sid = None ->
        ask P env req s
        = ({| status := 404;
              body := ErrorBody (lit "Invalid or expired sessionId") |}, s)
        /\ trace (snd (ask P env req s)) = trace s).
Proof.
  split.
  - intros H. unfold ask, ask_try.
    destruct H as [H|H]; rewrite H; simpl; [reflexivity|].
    rewrite orb_true_r. reflexivity.
  - intros sid Hsid Hne Hq Hnone.
    assert (E : ask P env req s
                = ({| status := 404;
                      body := ErrorBody (lit "Invalid or expired sessionId") |},
                   s)).
    { unfold ask, ask_try. rewrite Hsid, Hq.
      destruct sid as [|c rest]; [contradiction|]. simpl.
      rewrite Hnone. reflexivity. }
    split; [exact E|]. rewrite E. reflexivity.
Qed.

End Routes.

Lemma process_added_eq_chunks_witness :
  process Demo.providers Demo.env_with_key Demo.sky_request Demo.fresh
  = (json (ProcessBody Demo.sky_session 1 1
             [ {| meta_source := lit "inline"; meta_note := None;
                  hasContent := true |} ]),
     Demo.after_sky)
  /\ 1 = 1.
Proof.
  assert (H : process Demo.providers Demo.env_with_key Demo.sky_request
                Demo.fresh
              = (json (ProcessBody Demo.sky_session 1 1
                         [ {| meta_source := lit "inline"; meta_note := None;
                              hasContent := true |} ]),
                 Demo.after_sky)) by (vm_compute; reflexivity).
  split; [exact H|].
  exact (proj1 (process_added_eq_chunks Demo.providers Demo.env_with_key
                  Demo.sky_request Demo.fresh Demo.after_sky 200
                  Demo.sky_session 1 1 _ H)).
Defined.

Lemma ask_spec_witness :
  ask Demo.providers Demo.env_with_key
    {| ask_sessionId := Some Demo.sky_session; ask_query := None |}
    Demo.after_sky
  = ({| status := 400;
        body := ErrorBody (lit "sessionId and query are required") |},
     Demo.after_sky)
  /\ ask Demo.providers Demo.env_with_key
       {| ask_sessionId := Some (lit "s_0_nosuch");
          ask_query := Some (lit "What color is the sky?") |}
       Demo.after_sky
     = ({| status := 404;
           body := ErrorBody (lit "Invalid or expired sessionId") |},
        Demo.after_sky).
Proof.
  split.
  - apply (proj1 (ask_spec Demo.providers Demo.env_with_key
                    {| ask_sessionId := Some Demo.sky_session;
                       ask_query := None |} Demo.after_sky)).
    right. reflexivity.
  - apply (proj2 (ask_spec Demo.providers Demo.env_with_key
                    {| ask_sessionId := Some (lit "s_0_nosuch");
                       ask_query := Some (lit "What color is the sky?") |}
                    Demo.after_sky) (lit "s_0_nosuch") eq_refl).
    + vm_compute. discriminate.
    + reflexivity.
    + vm_compute. reflexivity.
Defined.

(** ** The source normaliser: captions *)

Section YouTube.

Context {Ext : Type}.
Variable P : Providers Ext.
Variable env : Env.

Lemma truthy_Some_iff (t : jsstring) : truthy (Some t) = true <-> t <> [].
Proof. destruct t; simpl; split; congruence. Qed.




End YouTube.


(** C4, on the code.  With [YT_LANGUAGE] set to [fr], the first attempt
    still asks for the language [en]: the hint is a constant of the code and
    is not read from the environment.  The note on the resulting document
    nevertheless says the transcript was loaded with [lang=fr]. *)
Theorem loadYouTube_hint_not_from_env :
  YT_LANGUAGE Demo.env_french = lit "fr"
  /\ loadYouTube Demo.providers_english_captions Demo.env_french
       (Some Demo.video) Demo.fresh
     = (inr [ new_Document (lit "hello") Demo.video
                (Some (lit
                   "YouTube transcript loaded via LangChain (lang=fr)")) ],
        with_ext Demo.fresh tt
          [ EvYoutubeLoad Demo.video
              {| language := Some (lit "en");
                 addVideoInfo := true;
                 translation := Some (lit "en") |} ])
  /\ language first_attempt_config <> Some (YT_LANGUAGE Demo.env_french)
  /\ language second_attempt_config = None.
Proof.
  split; [reflexivity|]. split; [vm_compute; reflexivity|].
  split; [vm_compute; discriminate|reflexivity].
Qed.

(** ** Ingest without extractable content *)

Section NoContent.

Context {Ext : Type}.
Variable P : Providers Ext.
Variable env : Env.

Lemma only_loads_refl (s : State Ext) : only_loads s s.
Proof.
  repeat split. exists []. rewrite app_nil_r. split; reflexivity.
Qed.

Lemma only_loads_with_ext (s : State Ext) e evs :
  forallb is_load_step evs = true -> only_loads s (with_ext s e evs).
Proof. intros H. repeat split. exists evs. split; [reflexivity|exact H]. Qed.

Lemma only_loads_trans (s1 s2 s3 : State Ext) :
  only_loads s1 s2 -> only_loads s2 s3 -> only_loads s1 s3.
Proof.
  intros (Hs & Hp & evs & Ht & Hl) (Hs' & Hp' & evs' & Ht' & Hl').
  split; [congruence|]. split; [congruence|].
  exists (evs ++ evs'). split.
  - rewrite Ht', Ht, app_assoc. reflexivity.
  - rewrite forallb_app, Hl, Hl'. reflexivity.
Qed.

Lemma loadPdf_only_loads tempPath originalName (s : State Ext) :
  only_loads s (snd (loadPdf P tempPath originalName s)).
Proof.
  unfold loadPdf. destruct tempPath as [[|c rest]|];
    try apply only_loads_refl.
  unfold bind. rewrite attempt_call_eq.
  destruct (fst (fs_access P (c :: rest) (ext s))).
  - apply only_loads_with_ext. reflexivity.
  - rewrite attempt_call_eq. cbn [ext with_ext].
    destruct (fst (pdf_load P (c :: rest) _)); cbn [ret snd];
      rewrite with_ext_with_ext; apply only_loads_with_ext; reflexivity.
Qed.

Lemma loadYouTube_only_loads url (s : State Ext) :
  only_loads s (snd (loadYouTube P env url s)).
Proof.
  unfold loadYouTube. destruct url as [[|c rest]|];
    try apply only_loads_refl.
  destruct (negb (truthy (Some (trim (c :: rest))))); [apply only_loads_refl|].
  unfold bind. rewrite attempt_call_eq.
  destruct (truthy (Some _)); [apply only_loads_with_ext; reflexivity|].
  rewrite attempt_call_eq. cbn [ext with_ext].
  destruct (truthy (Some _)); cbn [ret snd];
    rewrite with_ext_with_ext; apply only_loads_with_ext; reflexivity.
Qed.

Lemma load_parts_only_loads (req : ProcessRequest) (s : State Ext) :
  only_loads s (snd (load_parts P env req s)).
Proof.
  unfold load_parts, bind, Promise_all3. cbn [ret].
  set (pdf := match file req with
              | Some f => loadPdf P (path f) (originalname f)
              | None => ret []
              end).
  assert (Hpdf : only_loads s (snd (pdf s))).
  { unfold pdf. destruct (file req); [apply loadPdf_only_loads|].
    apply only_loads_refl. }
  destruct (pdf s) as [rb s2]. simpl in Hpdf.
  assert (Hyt := loadYouTube_only_loads (youtubeUrl req) s2).
  destruct (loadYouTube P env (youtubeUrl req) s2) as [rc s3].
  simpl in Hyt. assert (H := only_loads_trans _ _ _ Hpdf Hyt).
  destruct rb, rc; exact H.
Qed.

Lemma blank_docs_no_content (docs : list Document) :
  Forall (fun d => trim (content_of d) = []) docs ->
  existsb has_content docs = false.
Proof.
  induction 1 as [|d rest Hd _ IH]; [reflexivity|].
  simpl. rewrite IH. unfold has_content. rewrite Hd. reflexivity.
Qed.

Lemma filter_truthy_notes (docs : list Document) :
  Forall (fun d => note_of d <> Some []) docs ->
  List.filter truthy (map note_of docs) = map Some (non_null_notes docs).
Proof.
  unfold non_null_notes.
  induction 1 as [|d rest Hd _ IH]; [reflexivity|].
  simpl. destruct (note_of d) as [[|c r]|]; simpl.
  - contradiction.
  - rewrite IH. reflexivity.
  - exact IH.
Qed.

Lemma loadPdf_notes tempPath originalName (s s' : State Ext) docs :
  pdf_notes_nonempty P ->
  loadPdf P tempPath originalName s = (inr docs, s') ->
  Forall (fun d => note_of d <> Some []) docs.
Proof.
  intros Hpdf. unfold loadPdf.
  destruct tempPath as [[|c rest]|]; try (intros [= <- _]; constructor).
  unfold bind. rewrite attempt_call_eq.
  destruct (fst (fs_access P (c :: rest) (ext s))); [discriminate|].
  rewrite attempt_call_eq. cbn [ext with_ext].
  destruct (pdf_load P (c :: rest) _) as [[e|loaded] e'] eqn:Hload;
    cbn [fst snd]; intros [= <- _].
  - constructor; [|constructor]. vm_compute. discriminate.
  - apply Hpdf in Hload. apply Forall_map.
    eapply Forall_impl; [exact Hload|]. intros d Hd. exact Hd.
Qed.

Lemma loadYouTube_notes url (s s' : State Ext) docs :
  loadYouTube P env url s = (inr docs, s') ->
  Forall (fun d => note_of d <> Some []) docs.
Proof.
  unfold loadYouTube.
  destruct url as [[|c rest]|]; try (intros [= <- _]; constructor).
  destruct (negb (truthy (Some (trim (c :: rest)))));
    [intros [= <- _]; constructor|].
  unfold bind. rewrite attempt_call_eq.
  destruct (truthy (Some _)).
  - intros [= <- _]. constructor; [|constructor]. discriminate.
  - rewrite attempt_call_eq.
    destruct (truthy (Some _)); intros [= <- _];
      (constructor; [|constructor]); discriminate.
Qed.

Lemma loadInline_notes text :
  Forall (fun d => note_of d <> Some []) (loadInline text).
Proof.
  unfold loadInline. destruct text as [t|]; [|constructor].
  destruct (_ || _); [constructor|].
  constructor; [|constructor]. discriminate.
Qed.

Lemma load_parts_notes (req : ProcessRequest) (s s1 : State Ext) docs :
  pdf_notes_nonempty P ->
  load_parts P env req s = (inr docs, s1) ->
  Forall (fun d => note_of d <> Some []) docs.
Proof.
  intros Hpdf. unfold load_parts, bind, Promise_all3. cbn [ret].
  set (pdf := match file req with
              | Some f => loadPdf P (path f) (originalname f)
              | None => ret []
              end).
  assert (Hnotes : forall pdocs s2, pdf s = (inr pdocs, s2) ->
                     Forall (fun d => note_of d <> Some []) pdocs).
  { unfold pdf. destruct (file req) as [f|].
    - intros pdocs s2. apply loadPdf_notes, Hpdf.
    - intros pdocs s2 [= <- _]. constructor. }
  destruct (pdf s) as [[e|pdocs] s2].
  - destruct (loadYouTube P env (youtubeUrl req) s2) as [[e'|ydocs] s3];
      discriminate.
  - specialize (Hnotes _ _ eq_refl).
    destruct (loadYouTube P env (youtubeUrl req) s2) as [[e'|ydocs] s3]
      eqn:Hyt; [discriminate|].
    apply loadYouTube_notes in Hyt. intros [= <- _]. simpl.
    rewrite app_nil_r. rewrite !Forall_app.
    split; [apply loadInline_notes|]. split; assumption.
Qed.

(** C5.  When the loaders of an ingest request resolve and every document
    they produced has blank content, [/process] answers 400 with the fixed
    tips message and the documents' notes, in order: the notes that are
    present and not empty, which are all the notes present as long as the
    PDF loader attaches no empty one.  The request does nothing further:
    beyond the loaders' calls only the uploaded file is unlinked; nothing
    is chunked, nothing is written to or asked of the collection, and the
    session registry and the shared store are as before. *)
Theorem process_no_content (req : ProcessRequest) (s s1 : State Ext)
    (docs : list Document) :
  load_parts P env req s = (inr docs, s1) ->
  Forall (fun d => trim (content_of d) = []) docs ->
  exists notes,
    process P env req s
    = ({| status := 400; body := NoContentBody no_content_error notes |},
       after_unlink P req s1)
    /\ notes = List.filter truthy (map note_of docs)
    /\ (pdf_notes_nonempty P -> notes = map Some (non_null_notes docs))
    /\ sessions (after_unlink P req s1) = sessions s
    /\ sharedStorePromise (after_unlink P req s1) = sharedStorePromise s
    /\ exists evs,
         trace (after_unlink P req s1) = trace s ++ evs
         /\ forallb (fun ev => negb (is_ingest_step ev)) evs = true.
Proof.
  intros Hload Hblank. exists (List.filter truthy (map note_of docs)).
  split; [|split; [reflexivity|split]].
  - unfold process, process_try, bind. rewrite Hload.
    replace (match file req with Some f => _ | None => _ end s1)
      with (@inr Err unit tt, after_unlink P req s1)
      by (unfold after_unlink; destruct (file req); reflexivity).
    rewrite (blank_docs_no_content _ Hblank). reflexivity.
  - intros Hpdf. apply filter_truthy_notes.
    exact (load_parts_notes _ _ _ _ Hpdf Hload).
  - assert (H := load_parts_only_loads req s). rewrite Hload in H.
    destruct H as (Hs & Hp & evs & Ht & Hl). cbn [snd] in *.
    assert (Hquiet : forall l, forallb is_load_step l = true ->
              forallb (fun ev => negb (is_ingest_step ev)) l = true).
    { induction l as [|ev l IH]; [reflexivity|]. simpl.
      intros [Hev Hrest]%andb_prop. rewrite (IH Hrest).
      destruct ev; try discriminate Hev; reflexivity. }
    unfold after_unlink. destruct (file req) as [f|].
    + split; [exact Hs|]. split; [exact Hp|].
      exists (evs ++ [EvUnlink (or_else (path f) [])]).
      split; [rewrite with_ext_trace, Ht, app_assoc; reflexivity|].
      rewrite forallb_app, (Hquiet _ Hl). reflexivity.
    + split; [exact Hs|]. split; [exact Hp|].
      exists evs. split; [exact Ht|]. exact (Hquiet _ Hl).
Qed.

End NoContent.

Lemma demo_pdf_notes_nonempty :
  pdf_notes_nonempty Demo.providers_no_captions.
Proof. intros path e docs e' [= <- _]. constructor. Defined.

Lemma process_no_content_witness :
  process Demo.providers_no_captions Demo.env_with_key Demo.video_request
    Demo.fresh
  = ({| status := 400;
        body := NoContentBody no_content_error
                  [ Some (lit
   "No transcript available or failed to fetch via LangChain YoutubeLoader") ] |},
     with_ext Demo.fresh tt
       [ EvYoutubeLoad Demo.video first_attempt_config;
         EvYoutubeLoad Demo.video second_attempt_config ]).
Proof.
  destruct (process_no_content Demo.providers_no_captions Demo.env_with_key
              Demo.video_request Demo.fresh
              (with_ext Demo.fresh tt
                 [ EvYoutubeLoad Demo.video first_attempt_config;
                   EvYoutubeLoad Demo.video second_attempt_config ])
              [ new_Document [] Demo.video
                  (Some (lit
   "No transcript available or failed to fetch via LangChain YoutubeLoader")) ])
    as (notes & Hrun & _ & Hnotes & _).
  - vm_compute. reflexivity.
  - repeat constructor.
  - rewrite Hrun, (Hnotes demo_pdf_notes_nonempty). reflexivity.
Defined.

(** * Further properties of the server *)

(** ** Uploads *)

Section Uploads.

Context {Ext : Type}.
Variable P : Providers Ext.

Lemma new_events_app (s s' : State Ext) evs :
  trace s' = trace s ++ evs -> new_events s s' = evs.
Proof. intros H. unfold new_events. rewrite H. apply drop_app_length. Qed.

Lemma new_events_with_ext (s : State Ext) e evs :
  new_events s (with_ext s e evs) = evs.
Proof. apply new_events_app. reflexivity. Qed.

(** X1.  Once the uploaded file is accessible, [loadPdf] always resolves,
    whatever the PDF loader does, and every document it yields carries the
    upload's name as source ([upload.pdf] when there is none).  When the
    loader rejects, the result is a single document with empty content whose
    note is [Error processing PDF: ] followed by the error's message (or by
    the error itself when it has no message).  When the loader resolves,
    its documents come back one for one, in order, content and note
    untouched. *)
Theorem loadPdf_after_access (path : jsstring)
    (originalName : option jsstring) (s : State Ext) :
  path <> [] ->
  fst (fs_access P path (ext s)) = inr tt ->
  let e1 := snd (fs_access P path (ext s)) in
  let loaded := pdf_load P path e1 in
  exists docs,
    loadPdf P (Some path) originalName s
    = (inr docs, with_ext s (snd loaded) [EvAccess path; EvPdfLoad path])
    /\ Forall (fun d => source_of d = Some (upload_source originalName)) docs
    /\ match fst loaded with
       | inl error =>
           docs = [ new_Document [] (upload_source originalName)
                      (Some (lit "Error processing PDF: "
                             ++ or_else (message error) (as_string error))) ]
       | inr extracted => Forall2 (renamed_from originalName) docs extracted
       end.
Proof.
  intros Hne Hacc e1 loaded. destruct path as [|c rest]; [contradiction|].
  unfold loadPdf, bind. rewrite attempt_call_eq, Hacc.
  rewrite attempt_call_eq. cbn [ext with_ext]. fold e1. fold loaded.
  destruct (fst loaded) as [error|extracted]; cbn [ret];
    rewrite with_ext_with_ext; eexists; (split; [reflexivity|]).
  - split; [|reflexivity]. constructor; [reflexivity|constructor].
  - split.
    + apply Forall_map, Forall_forall. intros d _. reflexivity.
    + induction extracted as [|d rest' IH]; constructor; [|exact IH].
      repeat split.
Qed.

(** X2.  When the uploaded file cannot be accessed, [loadPdf] rejects with
    its own error, which names the path; the cause is dropped and the PDF
    loader is never called. *)
Theorem loadPdf_inaccessible (path : jsstring)
    (originalName : option jsstring) (s : State Ext) (cause : Err) :
  path <> [] ->
  fst (fs_access P path (ext s)) = inl cause ->
  loadPdf P (Some path) originalName s
  = (inl (new_Error (lit "Uploaded file cannot be accessed at " ++ path)),
     with_ext s (snd (fs_access P path (ext s))) [EvAccess path])
  /\ new_events s (snd (loadPdf P (Some path) originalName s))
     = [EvAccess path].
Proof.
  intros Hne Hacc. destruct path as [|c rest]; [contradiction|].
  assert (E : loadPdf P (Some (c :: rest)) originalName s
              = (inl (new_Error (lit "Uploaded file cannot be accessed at "
                                 ++ c :: rest)),
                 with_ext s (snd (fs_access P (c :: rest) (ext s)))
                   [EvAccess (c :: rest)])).
  { unfold loadPdf, bind. rewrite attempt_call_eq, Hacc. reflexivity. }
  split; [exact E|]. rewrite E. apply new_events_with_ext.
Qed.

End Uploads.

Lemma loadPdf_after_access_witness :
  (exists docs,
     loadPdf (Demo2.with_upload (inr tt) (inr [Demo2.page])) (Some Demo2.tmp)
       (Some (lit "notes.pdf")) Demo.fresh
     = (inr docs,
        with_ext Demo.fresh tt [EvAccess Demo2.tmp; EvPdfLoad Demo2.tmp])
     /\ Forall (fun d => source_of d = Some (lit "notes.pdf")) docs
     /\ Forall2 (renamed_from (Some (lit "notes.pdf"))) docs [Demo2.page])
  /\ (exists docs,
        loadPdf (Demo2.with_upload (inr tt) (inl Demo2.encrypted))
          (Some Demo2.tmp) None Demo.fresh
        = (inr docs,
           with_ext Demo.fresh tt [EvAccess Demo2.tmp; EvPdfLoad Demo2.tmp])
        /\ Forall (fun d => source_of d = Some (lit "upload.pdf")) docs
        /\ docs = [ new_Document [] (lit "upload.pdf")
                      (Some (lit "Error processing PDF: Encrypted PDF")) ]).
Proof.
  split.
  - apply (loadPdf_after_access
             (Demo2.with_upload (inr tt) (inr [Demo2.page])) Demo2.tmp
             (Some (lit "notes.pdf")) Demo.fresh).
    + vm_compute. discriminate.
    + reflexivity.
  - apply (loadPdf_after_access
             (Demo2.with_upload (inr tt) (inl Demo2.encrypted)) Demo2.tmp
             None Demo.fresh).
    + vm_compute. discriminate.
    + reflexivity.
Defined.

Lemma loadPdf_inaccessible_witness :
  loadPdf (Demo2.with_upload (inl Demo2.enoent) (inr [Demo2.page]))
    (Some Demo2.tmp) (Some (lit "notes.pdf")) Demo.fresh
  = (inl (new_Error
            (lit "Uploaded file cannot be accessed at uploads/3f9a")),
     with_ext Demo.fresh tt [EvAccess Demo2.tmp]).
Proof.
  apply (loadPdf_inaccessible
           (Demo2.with_upload (inl Demo2.enoent) (inr [Demo2.page]))
           Demo2.tmp (Some (lit "notes.pdf")) Demo.fresh Demo2.enoent).
  - vm_compute. discriminate.
  - reflexivity.
Defined.

(** ** Stages of [/process] *)

Section Stages.

Context {Ext : Type}.
Variable P : Providers Ext.
Variable env : Env.

Lemma advances_refl (s : State Ext) : advances s s [].
Proof. split; [reflexivity|]. rewrite app_nil_r. reflexivity. Qed.

Lemma advances_with_ext (s : State Ext) e evs :
  advances s (with_ext s e evs) evs.
Proof. split; reflexivity. Qed.

Lemma advances_trans (s1 s2 s3 : State Ext) evs evs' :
  advances s1 s2 evs -> advances s2 s3 evs' -> advances s1 s3 (evs ++ evs').
Proof.
  intros [Hs Ht] [Hs' Ht']. split; [congruence|].
  rewrite Ht', Ht, app_assoc. reflexivity.
Qed.

Lemma advances_new_events (s s' : State Ext) evs :
  advances s s' evs -> new_events s s' = evs.
Proof. intros [_ Ht]. apply new_events_app, Ht. Qed.

Lemma only_loads_advances (s s' : State Ext) :
  only_loads s s' ->
  exists evs, advances s s' evs /\ forallb is_load_step evs = true.
Proof.
  intros (Hs & _ & evs & Ht & Hl). exists evs. repeat split; assumption.
Qed.

Lemma after_unlink_advances (req : ProcessRequest) (s : State Ext) :
  advances s (after_unlink P req s)
    (match file req with
     | Some f => [EvUnlink (or_else (path f) [])]
     | None => []
     end)
  /\ sharedStorePromise (after_unlink P req s) = sharedStorePromise s.
Proof.
  unfold after_unlink. destruct (file req).
  - split; [apply advances_with_ext|reflexivity].
  - split; [apply advances_refl|reflexivity].
Qed.

Lemma getSharedStore_eq (s : State Ext) :
  getSharedStore P s
  = match sharedStorePromise s with
    | Some settled => (settled, s)
    | None =>
        let connect := fromExistingCollection P COLLECTION_NAME (ext s) in
        (fst connect,
         {| ext := snd connect;
            trace := trace s ++ [EvFromExistingCollection COLLECTION_NAME];
            sessions := sessions s;
            sharedStorePromise := Some (fst connect) |})
    end.
Proof.
  unfold getSharedStore, makeStore. destruct (sharedStorePromise s);
    [reflexivity|].
  rewrite call_eq. reflexivity.
Qed.

Lemma getSharedStore_advances (s : State Ext) :
  advances s (snd (getSharedStore P s))
    (match sharedStorePromise s with
     | Some _ => []
     | None => [EvFromExistingCollection COLLECTION_NAME]
     end)
  /\ sharedStorePromise (snd (getSharedStore P s))
     = Some (fst (getSharedStore P s)).
Proof.
  rewrite getSharedStore_eq. destruct (sharedStorePromise s) eqn:Hp.
  - split; [apply advances_refl|exact Hp].
  - split; [split|]; reflexivity.
Qed.

Lemma upsertChunks_advances (cs : list Document) (s : State Ext) :
  advances s (snd (upsertChunks P (Some cs) s))
    (match cs with
     | [] => []
     | _ :: _ => [EvFromDocuments cs COLLECTION_NAME]
     end)
  /\ sharedStorePromise (snd (upsertChunks P (Some cs) s))
     = sharedStorePromise s.
Proof.
  destruct cs as [|c cs].
  - split; [apply advances_refl|reflexivity].
  - rewrite upsertChunks_nonempty. split; [apply advances_with_ext|].
    reflexivity.
Qed.

Lemma newSessionId_eq (s : State Ext) :
  let now := Date_now P (ext s) in
  let rnd := Math_random_base36 P (snd now) in
  newSessionId P s
  = (inr (lit "s_" ++ of_N (fst now) ++ lit "_" ++ slice 2 8 (fst rnd)),
     with_ext (with_ext s (snd now) []) (snd rnd) []).
Proof.
  intros now rnd. unfold newSessionId, bind, sample.
  fold now. destruct now as [n e1] eqn:Hnow. cbn [ext with_ext fst snd] in *.
  subst rnd. destruct (Math_random_base36 P e1) as [r e2]. reflexivity.
Qed.

Lemma newSessionId_advances (s : State Ext) :
  advances s (snd (newSessionId P s)) []
  /\ sharedStorePromise (snd (newSessionId P s)) = sharedStorePromise s.
Proof.
  rewrite newSessionId_eq. cbn [snd]. split; [|reflexivity].
  split; [reflexivity|]. cbn [trace with_ext]. rewrite !app_nil_r.
  reflexivity.
Qed.

(** The state after [sessions.set(sessionId, { store })]. *)
Lemma sessions_set_eq (id : jsstring) (sess : Session) (s : State Ext) :
  sessions_set id sess s
  = (inr tt,
     {| ext := ext s; trace := trace s;
        sessions := <[id := sess]> (sessions s);
        sharedStorePromise := sharedStorePromise s |}).
Proof. reflexivity. Qed.

(** [/process], stage by stage. *)
Lemma process_eq (req : ProcessRequest) (s : State Ext) :
  process P env req s
  = match load_parts P env req s with
    | (inl e, s1) => (process_failed e, s1)
    | (inr docs, s1) =>
        let s2 := after_unlink P req s1 in
        if existsb has_content docs then
          let s3 := with_ext s2 (ext s2) [EvSplitDocuments 800 160 docs] in
          match splitDocuments P 800 160 docs with
          | inl e => (process_failed e, s3)
          | inr cs =>
              match getSharedStore P s3 with
              | (inl e, s4) => (process_failed e, s4)
              | (inr st, s4) =>
                  match upsertChunks P (Some cs) s4 with
                  | (inl e, s5) => (process_failed e, s5)
                  | (inr added, s5) =>
                      match newSessionId P s5 with
                      | (inl e, s6) => (process_failed e, s6)
                      | (inr sid, s6) =>
                          (json (ProcessBody sid (length cs) added
                                   (map source_meta docs)),
                           {| ext := ext s6; trace := trace s6;
                              sessions :=
                                <[sid := {| store := st |}]> (sessions s6);
                              sharedStorePromise := sharedStorePromise s6 |})
                      end
                  end
              end
          end
        else
          ({| status := 400;
              body := NoContentBody no_content_error
                        (List.filter truthy (map note_of docs)) |}, s2)
    end.
Proof.
  unfold process, process_try, bind.
  destruct (load_parts P env req s) as [[e|docs] s1]; [reflexivity|].
  replace (match file req with Some f => _ | None => _ end s1)
    with (@inr Err unit tt, after_unlink P req s1)
    by (unfold after_unlink; destruct (file req); reflexivity).
  cbv zeta. destruct (existsb has_content docs); [|reflexivity].
  cbn [negb]. unfold chunkDocs. change (default 800 None) with 800.
  change (default 160 None) with 160. cbv zeta.
  destruct (splitDocuments P 800 160 docs) as [e|cs]; [reflexivity|].
  destruct (getSharedStore P _) as [[e|st] s4]; [reflexivity|].
  destruct (upsertChunks P (Some cs) s4) as [[e|added] s5]; [reflexivity|].
  destruct (newSessionId P s5) as [[e|sid] s6]; reflexivity.
Qed.

End Stages.

(** ** The ingest route *)

Section Ingest.

Context {Ext : Type}.
Variable P : Providers Ext.
Variable env : Env.

Lemma or_else_nonempty (o : option jsstring) (d : jsstring) :
  d <> [] -> or_else o d <> [].
Proof. intros Hd. destruct o as [[|c r]|]; simpl; congruence. Qed.

Lemma process_failed_message (e : Err) :
  exists msg,
    process_failed e = {| status := 500; body := ErrorBody msg |}
    /\ msg <> [].
Proof.
  eexists. split; [reflexivity|]. apply or_else_nonempty. discriminate.
Qed.

Lemma load_parts_advances (req : ProcessRequest) (s : State Ext) :
  exists loads,
    advances s (snd (load_parts P env req s)) loads
    /\ forallb is_load_step loads = true
    /\ sharedStorePromise (snd (load_parts P env req s))
       = sharedStorePromise s.
Proof.
  destruct (load_parts_only_loads P env req s) as (Hs & Hp & evs & Ht & Hl).
  exists evs. repeat split; assumption.
Qed.

(** A run of [/process] that answers with a session: every stage resolved,
    and the state is the one the stages leave, with the session added. *)
Lemma process_ok_inv (req : ProcessRequest) (s s' : State Ext) (st : nat)
    (sid : jsstring) (chunks added : nat) (meta : list SourceMeta) :
  process P env req s
  = ({| status := st; body := ProcessBody sid chunks added meta |}, s') ->
  exists docs s1 cs shared s5 loads,
    load_parts P env req s = (inr docs, s1)
    /\ existsb has_content docs = true
    /\ splitDocuments P 800 160 docs = inr cs
    /\ st = 200 /\ chunks = length cs /\ added = length cs
    /\ meta = map source_meta docs
    /\ fst (newSessionId P s5) = inr sid
    /\ forallb is_load_step loads = true
    /\ new_events s s'
       = loads ++ ingest_calls req (sharedStorePromise s) docs cs
    /\ sessions s' = <[sid := {| store := shared |}]> (sessions s)
    /\ sharedStorePromise s' = Some (inr shared)
    /\ (forall r, sharedStorePromise s = Some r -> r = inr shared).
Proof.
  rewrite process_eq.
  destruct (load_parts_advances req s) as (loads & Hload & Hl & Hp1).
  destruct (load_parts P env req s) as [[e|docs] s1];
    [intros [= ? ?]; discriminate|].
  cbn [snd] in Hload, Hp1. cbv zeta.
  destruct (existsb has_content docs) eqn:Hcontent; [|discriminate].
  destruct (after_unlink_advances P req s1) as [Hunlink Hp2].
  set (s2 := after_unlink P req s1) in *.
  set (s3 := with_ext s2 (ext s2) [EvSplitDocuments 800 160 docs]).
  assert (Hsplit := advances_with_ext s2 (ext s2)
                      [EvSplitDocuments 800 160 docs]).
  fold s3 in Hsplit.
  assert (Hp3 : sharedStorePromise s3 = sharedStorePromise s)
    by (unfold s3; cbn [sharedStorePromise with_ext]; congruence).
  destruct (splitDocuments P 800 160 docs) as [e|cs] eqn:Hcs;
    [intros [= ? ?]; discriminate|].
  destruct (getSharedStore_advances P s3) as [Hconnect Hp4].
  assert (Hg := getSharedStore_eq P s3).
  destruct (getSharedStore P s3) as [[e|shared] s4];
    [intros [= ? ?]; discriminate|].
  cbn [fst snd] in Hconnect, Hp4.
  destruct (upsertChunks_advances P cs s4) as [Hwrite Hp5].
  assert (Hadded := upsertChunks_returns_length P (Some cs) s4).
  destruct (upsertChunks P (Some cs) s4) as [[e|n] s5];
    [intros [= ? ?]; discriminate|].
  cbn [snd] in Hwrite, Hp5. specialize (Hadded _ _ eq_refl).
  destruct (newSessionId_advances P s5) as [Hid Hp6].
  assert (Hsid := newSessionId_eq P s5). cbv zeta in Hsid.
  destruct (newSessionId P s5) as [[e|sid'] s6] eqn:Hnew;
    [discriminate Hsid|].
  cbn [snd] in Hid, Hp6.
  intros [= <- <- <- <- <- <-].
  exists docs, s1, cs, shared, s5, loads.
  split; [reflexivity|]. split; [exact Hcontent|]. split; [exact Hcs|].
  split; [reflexivity|]. split; [reflexivity|]. split; [exact Hadded|].
  split; [reflexivity|]. split; [rewrite Hnew; reflexivity|].
  split; [exact Hl|].
  assert (Hall := advances_trans _ _ _ _ _
                    (advances_trans _ _ _ _ _
                       (advances_trans _ _ _ _ _
                          (advances_trans _ _ _ _ _
                             (advances_trans _ _ _ _ _ Hload Hunlink)
                             Hsplit) Hconnect) Hwrite) Hid).
  rewrite Hp3 in Hall. rewrite app_nil_r in Hall.
  split; [|split; [|split]].
  - apply new_events_app. cbn [trace]. rewrite (proj2 Hall).
    unfold ingest_calls. rewrite <- !app_assoc. reflexivity.
  - cbn [sessions]. rewrite (proj1 Hall). reflexivity.
  - cbn [sharedStorePromise]. congruence.
  - intros r Hr. rewrite Hp3, Hr in Hg. congruence.
Qed.

(** What every run of [/process] keeps: a cached store stays cached, and
    unless the run answers with a session the registry is untouched and the
    answer is one of the two failures. *)
Lemma process_frame (req : ProcessRequest) (s : State Ext) :
  let resp := fst (process P env req s) in
  let s' := snd (process P env req s) in
  (forall r, sharedStorePromise s = Some r -> sharedStorePromise s' = Some r)
  /\ ((exists sid chunks added meta,
         resp = json (ProcessBody sid chunks added meta))
      \/ (sessions s' = sessions s
          /\ ((exists e, resp = process_failed e)
              \/ exists docs s1,
                   load_parts P env req s = (inr docs, s1)
                   /\ existsb has_content docs = false
                   /\ s' = after_unlink P req s1
                   /\ resp = {| status := 400;
                                body := NoContentBody no_content_error
                                          (List.filter truthy
                                             (map note_of docs)) |}))).
Proof.
  cbv zeta. rewrite process_eq.
  destruct (load_parts_advances req s) as (loads & Hload & Hl & Hp1).
  destruct (load_parts P env req s) as [[e|docs] s1]; cbn [fst snd] in *.
  { split; [intros r Hr; congruence|]. right.
    split; [exact (proj1 Hload)|]. left. eauto. }
  destruct (after_unlink_advances P req s1) as [Hunlink Hp2].
  set (s2 := after_unlink P req s1) in *.
  destruct (existsb has_content docs) eqn:Hcontent; cbn [fst snd].
  2:{ split; [intros r Hr; congruence|]. right.
      split; [rewrite (proj1 Hunlink); exact (proj1 Hload)|].
      right. exists docs, s1. auto. }
  set (s3 := with_ext s2 (ext s2) [EvSplitDocuments 800 160 docs]).
  assert (Hs3 : sessions s3 = sessions s)
    by (unfold s3; cbn [sessions with_ext];
        rewrite (proj1 Hunlink); exact (proj1 Hload)).
  assert (Hp3 : sharedStorePromise s3 = sharedStorePromise s)
    by (unfold s3; cbn [sharedStorePromise with_ext]; congruence).
  destruct (splitDocuments P 800 160 docs) as [e|cs]; cbn [fst snd].
  { split; [intros r Hr; congruence|]. right. split; [exact Hs3|].
    left. eauto. }
  destruct (getSharedStore_advances P s3) as [Hconnect Hp4].
  assert (Hg := getSharedStore_eq P s3).
  assert (Hkeep : forall r, sharedStorePromise s = Some r ->
                    sharedStorePromise (snd (getSharedStore P s3)) = Some r).
  { intros r Hr. rewrite Hg, Hp3, Hr. cbn [snd]. congruence. }
  clear Hg.
  destruct (getSharedStore P s3) as [[e|shared] s4]; cbn [fst snd] in *.
  { split; [exact Hkeep|]. right.
    split; [rewrite (proj1 Hconnect); exact Hs3|]. left. eauto. }
  destruct (upsertChunks_advances P cs s4) as [Hwrite Hp5].
  destruct (upsertChunks P (Some cs) s4) as [[e|n] s5]; cbn [fst snd] in *.
  { split; [intros r Hr; rewrite Hp5; auto|]. right.
    split; [rewrite (proj1 Hwrite), (proj1 Hconnect); exact Hs3|].
    left. eauto. }
  destruct (newSessionId_advances P s5) as [Hid Hp6].
  destruct (newSessionId P s5) as [[e|sid] s6]; cbn [fst snd] in *.
  { split; [intros r Hr; rewrite Hp6, Hp5; auto|]. right.
    split; [rewrite (proj1 Hid), (proj1 Hwrite), (proj1 Hconnect);
            exact Hs3|].
    left. eauto. }
  split; [intros r Hr; rewrite Hp6, Hp5; auto|]. left. eauto.
Qed.

(** X3.  [/process] touches the session registry only when it answers
    200: then exactly one session is set, under the id it returns, bound
    to the store the process has cached; sessions under other ids are
    kept.  After a 400 or a 500 the registry is what it was. *)
Theorem process_registry (req : ProcessRequest) (s : State Ext) :
  let resp := fst (process P env req s) in
  let s' := snd (process P env req s) in
  match body resp with
  | ProcessBody sid _ _ _ =>
      status resp = 200
      /\ exists shared,
           sharedStorePromise s' = Some (inr shared)
           /\ sessions s' = <[sid := {| store := shared |}]> (sessions s)
           /\ sessions s' !! sid = Some {| store := shared |}
           /\ forall other, other <> sid ->
                sessions s' !! other = sessions s !! other
  | _ => status resp <> 200 /\ sessions s' = sessions s
  end.
Proof.
  cbv zeta. destruct (process_frame req s) as [_ [Hok|[Hsess Hfail]]].
  - destruct Hok as (sid & chunks & added & meta & Hresp).
    rewrite Hresp. cbn [body json status]. split; [reflexivity|].
    destruct (process P env req s) as [resp s'] eqn:Hrun.
    cbn [fst snd] in *. subst resp.
    apply process_ok_inv in Hrun
      as (docs & s1 & cs & shared & s5 & loads & _ & _ & _ & _ & _ & _ & _
          & _ & _ & _ & Hsessions & Hpromise & _).
    exists shared. split; [exact Hpromise|]. split; [exact Hsessions|].
    rewrite Hsessions. split; [apply lookup_insert_eq|].
    intros other Hne. apply lookup_insert_ne. congruence.
  - destruct Hfail as [[e ->]|(docs & s1 & _ & _ & _ & ->)];
      cbn [body status process_failed]; split; (discriminate || exact Hsess).
Qed.


End Ingest.

(** ** The ask route and the answer engine *)

Section Ask.

Context {Ext : Type}.
Variable P : Providers Ext.
Variable env : Env.

(** [answer], call by call. *)
Lemma answer_eq (store : QdrantVectorStore) (query : jsstring)
    (k : option nat) (s : State Ext) :
  let retrieval := EvGetRelevantDocuments store (default 5 k) query in
  let found := getRelevantDocuments P store (default 5 k) query (ext s) in
  answer P env store query k s
  = match fst found with
    | inl e => (inl e, with_ext s (snd found) [retrieval])
    | inr docs =>
        if truthy (Some (OPENAI_API_KEY env)) then
          let llm := {| apiKey := OPENAI_API_KEY env;
                        model := lit "gpt-4o-mini";
                        temperature := 2 # 10 |} in
          let messages :=
            [ {| role := lit "system"; content := system_prompt |};
              {| role := lit "user";
                 content := user_prompt (context_of docs) query |} ] in
          let reply := invoke P llm messages (snd found) in
          (match fst reply with
           | inl e => inl e
           | inr res => inr {| text := text_of res;
                               sources := sources_of docs |}
           end,
           with_ext s (snd reply) [retrieval; EvInvoke llm messages])
        else (inl missing_key, with_ext s (snd found) [retrieval])
    end.
Proof.
  intros retrieval found. unfold answer, bind. rewrite call_eq.
  fold found. fold retrieval.
  destruct (fst found) as [e|docs]; [reflexivity|].
  unfold makeLLM. destruct (truthy (Some (OPENAI_API_KEY env)));
    cbn [negb]; [|reflexivity].
  cbn [ret]. rewrite call_eq. cbn [ext with_ext].
  rewrite with_ext_with_ext. cbn [app].
  destruct (fst (invoke P _ _ _)); reflexivity.
Qed.

(** [/ask], case by case. *)
Lemma ask_eq (req : AskRequest) (s : State Ext) :
  ask P env req s
  = if negb (truthy (ask_sessionId req)) || negb (truthy (ask_query req))
    then ({| status := 400;
             body := ErrorBody (lit "sessionId and query are required") |},
          s)
    else
      match sessions s !! or_else (ask_sessionId req) [] with
      | None =>
          ({| status := 404;
              body := ErrorBody (lit "Invalid or expired sessionId") |}, s)
      | Some sess =>
          match answer P env (store sess)
                  (or_else (ask_query req) []) None s with
          | (inr result, s') => (json (AnswerBody result), s')
          | (inl e, s') => (ask_failed e, s')
          end
      end.
Proof.
  unfold ask, ask_try.
  destruct (negb (truthy (ask_sessionId req))
            || negb (truthy (ask_query req))); [reflexivity|].
  destruct (sessions s !! or_else (ask_sessionId req) []) as [sess|];
    [|reflexivity].
  unfold bind.
  destruct (answer P env (store sess) (or_else (ask_query req) []) None s)
    as [[e|result] s']; reflexivity.
Qed.

(** X5.  [answer] always makes its retrieval call first, for the given
    store and query and for 5 chunks unless told otherwise.  It invokes the
    language model exactly when that call resolved and the credential is
    set, and then once: with the credential as API key, and with the fixed
    system message followed by a user message built from the context of
    the retrieved chunks and the query.  It makes no other call and leaves
    the session registry and the cached store alone. *)
Theorem answer_calls (store : QdrantVectorStore) (query : jsstring)
    (k : option nat) (s : State Ext) :
  let s' := snd (answer P env store query k s) in
  let found :=
    fst (getRelevantDocuments P store (default 5 k) query (ext s)) in
  sessions s' = sessions s
  /\ sharedStorePromise s' = sharedStorePromise s
  /\ exists invocations,
       new_events s s'
       = EvGetRelevantDocuments store (default 5 k) query :: invocations
       /\ match found with
          | inr docs =>
              if truthy (Some (OPENAI_API_KEY env)) then
                invocations
                = [ EvInvoke
                      {| apiKey := OPENAI_API_KEY env;
                         model := lit "gpt-4o-mini";
                         temperature := 2 # 10 |}
                      [ {| role := lit "system"; content := system_prompt |};
                        {| role := lit "user";
                           content := user_prompt (context_of docs) query |} ] ]
              else invocations = []
          | inl _ => invocations = []
          end.
Proof.
  cbv zeta. rewrite answer_eq. cbv zeta.
  destruct (fst (getRelevantDocuments P store (default 5 k) query (ext s)))
    as [e|docs].
  - cbn [snd]. repeat split. exists []. split; [|reflexivity].
    apply new_events_with_ext.
  - destruct (truthy (Some (OPENAI_API_KEY env))); cbn [snd];
      repeat split; eexists; (split; [apply new_events_with_ext|reflexivity]).
Qed.

(** X6.  When retrieval resolves, the credential is set and the model
    replies, [answer] resolves: its text is the reply's text (a string
    verbatim, the fragments of an array joined by line breaks) and its
    sources cite the retrieved chunks.  When the model rejects, so does
    [answer], with the model's error. *)
Theorem answer_outcome (store : QdrantVectorStore) (query : jsstring)
    (k : option nat) (s : State Ext) (docs : list Document) :
  OPENAI_API_KEY env <> [] ->
  fst (getRelevantDocuments P store (default 5 k) query (ext s)) = inr docs ->
  exists llm messages,
    new_events s (snd (answer P env store query k s))
    = [ EvGetRelevantDocuments store (default 5 k) query;
        EvInvoke llm messages ]
    /\ let reply :=
         fst (invoke P llm messages
                (snd (getRelevantDocuments P store (default 5 k) query
                        (ext s)))) in
       fst (answer P env store query k s)
       = match reply with
         | inl e => inl e
         | inr res => inr {| text := text_of res; sources := sources_of docs |}
         end
       /\ (forall t, reply = inr (ContentString t) ->
           exists r, fst (answer P env store query k s) = inr r
                     /\ text r = Some t).
Proof.
  intros Hkey Hfound. rewrite answer_eq. cbv zeta. rewrite Hfound.
  apply truthy_Some_iff in Hkey. rewrite Hkey. cbn [fst snd].
  eexists. eexists. split; [apply new_events_with_ext|]. cbv zeta.
  split; [reflexivity|]. intros t ->. eexists. split; reflexivity.
Qed.

(** X7.  [/ask] answers in one of four ways: 400 and 404 with their fixed
    messages, 200 with an answer, or 500 with a non-empty error message
    (the caught error's message, or [Failed to answer] when it has none).
    Whatever the answer, the session registry and the cached store are
    unchanged, at most two calls were made, and none of them loads,
    chunks, connects or writes. *)
Theorem ask_responses (req : AskRequest) (s : State Ext) :
  let resp := fst (ask P env req s) in
  let s' := snd (ask P env req s) in
  (resp = {| status := 400;
             body := ErrorBody (lit "sessionId and query are required") |}
   \/ resp = {| status := 404;
                body := ErrorBody (lit "Invalid or expired sessionId") |}
   \/ (exists result, resp = {| status := 200; body := AnswerBody result |})
   \/ (exists e msg,
         resp = {| status := 500; body := ErrorBody msg |}
         /\ msg = or_else (message e) (lit "Failed to answer")
         /\ msg <> []))
  /\ sessions s' = sessions s
  /\ sharedStorePromise s' = sharedStorePromise s
  /\ length (new_events s s') <= 2
  /\ records_written (new_events s s') = 0
  /\ forallb (fun ev => negb (is_ingest_step ev) && negb (is_load_step ev))
       (new_events s s') = true.
Proof.
  cbv zeta. rewrite ask_eq.
  assert (Hquiet : new_events s s = []).
  { apply new_events_app. rewrite app_nil_r. reflexivity. }
  destruct (negb (truthy (ask_sessionId req))
            || negb (truthy (ask_query req))).
  { cbn [fst snd]. rewrite Hquiet. split; [left; reflexivity|].
    repeat split. simpl. lia. }
  destruct (sessions s !! or_else (ask_sessionId req) []) as [sess|].
  2:{ cbn [fst snd]. rewrite Hquiet. split; [right; left; reflexivity|].
      repeat split. simpl. lia. }
  set (query := or_else (ask_query req) []).
  destruct (answer_calls (store sess) query None s)
    as (Hs & Hp & invocations & Hev & Hinv).
  assert (Hrun := answer_eq (store sess) query None s).
  destruct (answer P env (store sess) query None s) as [[e|result] s'].
  - cbn [fst snd] in *. split.
    + right. right. right. exists e. eexists. split; [reflexivity|].
      split; [reflexivity|]. apply or_else_nonempty. discriminate.
    + split; [exact Hs|]. split; [exact Hp|]. rewrite Hev.
      destruct (fst (getRelevantDocuments P _ _ _ _)) as [e'|docs];
        [subst invocations; repeat split; simpl; lia|].
      destruct (truthy (Some (OPENAI_API_KEY env)));
        subst invocations; repeat split; simpl; lia.
  - cbn [fst snd] in *. split.
    + right. right. left. exists result. reflexivity.
    + split; [exact Hs|]. split; [exact Hp|]. rewrite Hev.
      destruct (fst (getRelevantDocuments P _ _ _ _)) as [e'|docs];
        [subst invocations; repeat split; simpl; lia|].
      destruct (truthy (Some (OPENAI_API_KEY env)));
        subst invocations; repeat split; simpl; lia.
Qed.

End Ask.

(** ** Sessions and the shared store *)

Section Sessions.

Context {Ext : Type}.
Variable P : Providers Ext.
Variable env : Env.

Lemma digits_of_uint_digits (u : Decimal.uint) :
  forallb is_digit (digits_of_uint u) = true.
Proof. induction u; simpl; auto. Qed.

Lemma digits_of_uint_inj (u v : Decimal.uint) :
  digits_of_uint u = digits_of_uint v -> u = v.
Proof.
  revert v. induction u; intros v; destruct v; simpl; intros H;
    try reflexivity; try discriminate H;
    injection H as H; f_equal; apply IHu; exact H.
Qed.

Lemma of_N_nonempty (n : N) : of_N n <> [].
Proof.
  unfold of_N. destruct n as [|p]; [discriminate|].
  simpl. intros H. apply (Unsigned.to_uint_nonnil p).
  destruct (Pos.to_uint p); simpl in H; try discriminate H. reflexivity.
Qed.

Lemma of_N_inj (n m : N) : of_N n = of_N m -> n = m.
Proof.
  unfold of_N. intros H. apply digits_of_uint_inj in H.
  apply DecimalN.Unsigned.to_uint_inj. exact H.
Qed.

(** Digits followed by an underscore read back in one way only. *)
Lemma digits_then_underscore (a b x y : jsstring) :
  forallb is_digit a = true -> forallb is_digit b = true ->
  a ++ lit "_" ++ x = b ++ lit "_" ++ y -> a = b.
Proof.
  revert b. induction a as [|c a IH]; intros b Ha Hb H.
  - destruct b as [|d b]; [reflexivity|]. simpl in H. injection H as H _.
    subst d. simpl in Hb. discriminate Hb.
  - destruct b as [|d b].
    + simpl in H. injection H as H _. subst c. simpl in Ha. discriminate Ha.
    + simpl in H. injection H as -> H. f_equal.
      simpl in Ha, Hb. apply andb_prop in Ha as [_ Ha].
      apply andb_prop in Hb as [_ Hb]. exact (IH b Ha Hb H).
Qed.

(** X8.  [newSessionId] always resolves and calls no collaborator.  The
    id is [s_], the clock reading in decimal, [_], and the code units 2 to
    7 of the random string (at most six of them): it is never empty, and
    ids made at different clock readings are different. *)
Theorem newSessionId_spec (s t : State Ext) :
  let now := fst (Date_now P (ext s)) in
  let rnd := fst (Math_random_base36 P (snd (Date_now P (ext s)))) in
  exists id suffix,
    fst (newSessionId P s) = inr id
    /\ id = lit "s_" ++ of_N now ++ lit "_" ++ suffix
    /\ suffix = take 6 (drop 2 rnd)
    /\ length suffix <= 6
    /\ forallb is_digit (of_N now) = true
    /\ 4 <= length id
    /\ truthy (Some id) = true
    /\ new_events s (snd (newSessionId P s)) = []
    /\ sessions (snd (newSessionId P s)) = sessions s
    /\ (fst (newSessionId P t) = inr id ->
        fst (Date_now P (ext t)) = now).
Proof.
  intros now rnd. rewrite !newSessionId_eq. cbn [fst snd].
  fold now. fold rnd. eexists. exists (take 6 (drop 2 rnd)).
  split; [reflexivity|].
  split; [unfold slice; rewrite take_drop_commute; reflexivity|].
  split; [reflexivity|]. split; [rewrite length_take; lia|].
  split; [apply digits_of_uint_digits|].
  assert (Hlen : 1 <= length (of_N now)).
  { assert (H := of_N_nonempty now). destruct (of_N now); [contradiction|].
    simpl. lia. }
  split; [rewrite !length_app; simpl; lia|].
  split; [reflexivity|].
  split; [apply new_events_app; simpl; rewrite !app_nil_r; reflexivity|].
  split; [reflexivity|].
  intros [= H]. apply digits_then_underscore in H;
    try apply digits_of_uint_digits.
  apply of_N_inj. exact H.
Qed.

(** X9.  [getSharedStore] connects at most once per process: the first
    use calls [fromExistingCollection] for the collection [ragChat] and
    keeps the outcome, resolved or rejected; every later use returns that
    outcome without any call. *)
Theorem getSharedStore_once (s : State Ext) :
  let first := getSharedStore P s in
  getSharedStore P (snd first) = (fst first, snd first)
  /\ sharedStorePromise (snd first) = Some (fst first)
  /\ sessions (snd first) = sessions s
  /\ new_events s (snd first)
     = match sharedStorePromise s with
       | Some _ => []
       | None => [EvFromExistingCollection (lit "ragChat")]
       end
  /\ (forall r, sharedStorePromise s = Some r -> first = (r, s)).
Proof.
  cbv zeta. destruct (getSharedStore_advances P s) as [Hadv Hp].
  split; [|split; [exact Hp|split; [exact (proj1 Hadv)|split]]].
  - rewrite (getSharedStore_eq P (snd (getSharedStore P s))), Hp.
    reflexivity.
  - exact (advances_new_events _ _ _ Hadv).
  - intros r Hr. rewrite getSharedStore_eq, Hr. reflexivity.
Qed.

(** X10.  As long as every session of the registry is bound to the cached
    store, which holds when the registry is empty, it stays so after any
    [/process] and any [/ask]; a store once cached is never replaced.  So
    all sessions of a process share one store handle. *)
Theorem registry_shared_invariant (s : State Ext) (req : ProcessRequest)
    (areq : AskRequest) :
  (sessions s = ∅ -> registry_shared s)
  /\ (forall r, sharedStorePromise s = Some r ->
      sharedStorePromise (snd (process P env req s)) = Some r
      /\ sharedStorePromise (snd (ask P env areq s)) = Some r)
  /\ (registry_shared s ->
      registry_shared (snd (process P env req s))
      /\ registry_shared (snd (ask P env areq s))
      /\ forall a b x y,
           sessions s !! a = Some x -> sessions s !! b = Some y ->
           store x = store y).
Proof.
  destruct (ask_responses P env areq s) as (_ & Has & Hap & _).
  destruct (process_frame P env req s) as [Hkeep Hcases].
  split; [|split].
  - intros Hempty sid sess H. rewrite Hempty, lookup_empty in H.
    discriminate H.
  - intros r Hr. split; [exact (Hkeep r Hr)|]. rewrite Hap. exact Hr.
  - intros Hinv. split; [|split].
    + destruct Hcases as [(sid & c & a & m & Hresp)|[Hsess _]].
      * destruct (process P env req s) as [resp s'] eqn:Hrun.
        cbn [fst snd] in *. subst resp.
        apply process_ok_inv in Hrun
          as (docs & s1 & cs & shared & s5 & loads & _ & _ & _ & _ & _ & _
              & _ & _ & _ & _ & Hsessions & Hpromise & Hcached).
        intros sid' sess Hlook. rewrite Hsessions in Hlook.
        destruct (decide (sid = sid')) as [->|Hne].
        -- rewrite lookup_insert_eq in Hlook. injection Hlook as <-.
           exact Hpromise.
        -- rewrite lookup_insert_ne in Hlook by exact Hne.
           apply Hinv in Hlook. rewrite Hpromise.
           assert (Hc := Hcached _ Hlook). congruence.
      * intros sid sess Hlook. rewrite Hsess in Hlook.
        apply Hinv in Hlook. exact (Hkeep _ Hlook).
    + intros sid sess Hlook. rewrite Has in Hlook. rewrite Hap.
      exact (Hinv _ _ Hlook).
    + intros a b x y Ha Hb. apply Hinv in Ha, Hb. congruence.
Qed.

(** X11.  A session id returned by [/process] is accepted by [/ask]: with
    that id and a non-empty query the request is neither refused (400) nor
    unknown (404); it is answered from the store the session was bound to,
    200 with the answer when [answer] resolves and 500 with its error
    otherwise. *)
Theorem process_then_ask (req : ProcessRequest) (s s' : State Ext)
    (st : nat) (sid : jsstring) (chunks added : nat)
    (meta : list SourceMeta) (query : jsstring) :
  process P env req s
  = ({| status := st; body := ProcessBody sid chunks added meta |}, s') ->
  query <> [] ->
  exists shared,
    sessions s' !! sid = Some {| store := shared |}
    /\ sharedStorePromise s' = Some (inr shared)
    /\ ask P env {| ask_sessionId := Some sid; ask_query := Some query |} s'
       = match answer P env shared query None s' with
         | (inr result, s'') => (json (AnswerBody result), s'')
         | (inl e, s'') => (ask_failed e, s'')
         end
    /\ status (fst (ask P env {| ask_sessionId := Some sid;
                                 ask_query := Some query |} s')) <> 400
    /\ status (fst (ask P env {| ask_sessionId := Some sid;
                                 ask_query := Some query |} s')) <> 404.
Proof.
  intros Hrun Hquery.
  apply process_ok_inv in Hrun
    as (docs & s1 & cs & shared & s5 & loads & _ & _ & _ & _ & _ & _
        & _ & Hsid & _ & _ & Hsessions & Hpromise & _).
  exists shared.
  assert (Hlook : sessions s' !! sid = Some {| store := shared |})
    by (rewrite Hsessions; apply lookup_insert_eq).
  split; [exact Hlook|]. split; [exact Hpromise|].
  assert (Hid : truthy (Some sid) = true).
  { destruct (newSessionId_spec s5 s5) as (id & suffix & Hfst & _ & _ & _
                                          & _ & _ & Htruthy & _).
    rewrite Hsid in Hfst. injection Hfst as <-. exact Htruthy. }
  assert (Hq : truthy (Some query) = true) by (apply truthy_Some_iff, Hquery).
  assert (E : ask P env {| ask_sessionId := Some sid;
                           ask_query := Some query |} s'
              = match answer P env shared query None s' with
                | (inr result, s'') => (json (AnswerBody result), s'')
                | (inl e, s'') => (ask_failed e, s'')
                end).
  { rewrite ask_eq. cbn [ask_sessionId ask_query]. rewrite Hid, Hq.
    cbn [negb orb]. destruct sid as [|c r]; [discriminate Hid|].
    destruct query as [|c' r']; [contradiction|].
    cbn [or_else]. rewrite Hlook. reflexivity. }
  split; [exact E|]. rewrite E.
  destruct (answer P env shared query None s') as [[e|result] s''];
    split; discriminate.
Qed.

End Sessions.

(** ** More on the ingest route *)

Section IngestRuns.

Context {Ext : Type}.
Variable P : Providers Ext.
Variable env : Env.

Lemma records_written_app (evs evs' : list Event) :
  records_written (evs ++ evs')
  = records_written evs + records_written evs'.
Proof.
  unfold records_written. rewrite map_app, sum_list_with_app. reflexivity.
Qed.

Lemma records_written_loads (evs : list Event) :
  forallb is_load_step evs = true -> records_written evs = 0.
Proof.
  induction evs as [|ev evs IH]; [reflexivity|]. simpl.
  intros [Hev Hrest]%andb_prop.
  change (records_written (ev :: evs))
    with (match ev with
          | EvFromDocuments chunks _ => length chunks
          | _ => 0
          end + records_written evs).
  rewrite (IH Hrest). destruct ev; try discriminate Hev; reflexivity.
Qed.

Lemma records_written_ingest_calls req cached docs cs :
  records_written (ingest_calls req cached docs cs) = length cs.
Proof.
  unfold ingest_calls. rewrite !records_written_app.
  destruct (file req), cached, cs; unfold records_written; simpl; lia.
Qed.

(** X12.  A run of [/process] that answers 200 made, after its loader
    calls, exactly these calls in this order: the unlink of the upload if
    there was one, the split of the documents with sizes 800 and 160, the
    connection to [ragChat] if no store was cached yet, and one write of
    all chunks to [ragChat] unless there are none.  The records handed to
    the database in the run are as many as [added], the number of chunks
    the splitter returned. *)
Theorem process_ok_calls (req : ProcessRequest) (s s' : State Ext)
    (st : nat) (sid : jsstring) (chunks added : nat)
    (meta : list SourceMeta) :
  process P env req s
  = ({| status := st; body := ProcessBody sid chunks added meta |}, s') ->
  exists docs s1 cs loads,
    load_parts P env req s = (inr docs, s1)
    /\ splitDocuments P 800 160 docs = inr cs
    /\ forallb is_load_step loads = true
    /\ new_events s s'
       = loads ++ ingest_calls req (sharedStorePromise s) docs cs
    /\ records_written (new_events s s') = added
    /\ added = length cs.
Proof.
  intros Hrun.
  apply process_ok_inv in Hrun
    as (docs & s1 & cs & shared & s5 & loads & Hload & _ & Hcs & _ & _
        & Hadded & _ & _ & Hl & Hev & _).
  exists docs, s1, cs, loads. split; [exact Hload|]. split; [exact Hcs|].
  split; [exact Hl|]. split; [exact Hev|]. split; [|exact Hadded].
  rewrite Hev, records_written_app, (records_written_loads _ Hl),
    records_written_ingest_calls. simpl. congruence.
Qed.



Lemma loadInline_nonblank (t : jsstring) :
  trim t <> [] -> loadInline (Some t) = [new_Document t (lit "inline") None].
Proof.
  intros H. unfold loadInline.
  destruct t as [|c rest]; [exfalso; apply H; reflexivity|].
  destruct (trim (c :: rest)); [contradiction|reflexivity].
Qed.

Lemma loadInline_blank (text : option jsstring) :
  absent_or_blank text -> loadInline text = [].
Proof.
  destruct text as [t|]; [|reflexivity]. simpl. intros H.
  unfold loadInline. rewrite H. destruct t; reflexivity.
Qed.

Lemma loadYouTube_blank (url : option jsstring) (s : State Ext) :
  absent_or_blank url -> loadYouTube P env url s = (inr [], s).
Proof.
  destruct url as [[|c rest]|]; try reflexivity. simpl. intros H.
  unfold loadYouTube. rewrite H. reflexivity.
Qed.

(** X14.  A request that supplies nothing usable (text absent or blank, no
    upload, video URL absent or blank) is answered 400 with the tips
    message and no notes, and nothing at all is called or changed. *)
Theorem process_nothing_supplied (req : ProcessRequest) (s : State Ext) :
  nothing_supplied req ->
  process P env req s
  = ({| status := 400; body := NoContentBody no_content_error [] |}, s).
Proof.
  intros (Htext & Hfile & Hurl). rewrite process_eq.
  unfold load_parts, bind, Promise_all3, after_unlink. rewrite Hfile.
  cbn [ret]. rewrite (loadYouTube_blank _ _ Hurl), (loadInline_blank _ Htext).
  reflexivity.
Qed.

Lemma load_parts_inline (req : ProcessRequest) (s s1 : State Ext) docs :
  load_parts P env req s = (inr docs, s1) ->
  exists rest, docs = loadInline (inlineText req) ++ rest.
Proof.
  unfold load_parts, bind, Promise_all3. cbn [ret].
  set (pdf := match file req with
              | Some f => loadPdf P (path f) (originalname f)
              | None => ret []
              end).
  destruct (pdf s) as [[e|pdocs] s2];
    destruct (loadYouTube P env (youtubeUrl req) s2) as [[e'|ydocs] s3];
    try discriminate.
  intros [= <- _]. eexists. reflexivity.
Qed.

(** X15.  A request with non-blank inline text is never refused for lack
    of content: the answer is 200, or 500 when a later step fails, but not
    400. *)
Theorem process_inline_has_content (req : ProcessRequest) (s : State Ext)
    (t : jsstring) :
  inlineText req = Some t ->
  trim t <> [] ->
  status (fst (process P env req s)) <> 400
  /\ (status (fst (process P env req s)) = 200
      \/ status (fst (process P env req s)) = 500).
Proof.
  intros Htext Ht.
  destruct (process_frame P env req s) as [_ [Hok|[_ [Hfail|Hnone]]]].
  - destruct Hok as (sid & c & a & m & ->). cbn. split; [discriminate|auto].
  - destruct Hfail as [e ->]. cbn. split; [discriminate|auto].
  - destruct Hnone as (docs & s1 & Hload & Hcontent & _).
    apply load_parts_inline in Hload as [rest ->]. exfalso.
    rewrite Htext, (loadInline_nonblank _ Ht) in Hcontent.
    cbn [app existsb] in Hcontent.
    apply orb_false_elim in Hcontent as [Hd' _].
    unfold has_content, content_of, new_Document in Hd'.
    cbn [pageContent] in Hd'.
    destruct t as [|c r]; [apply Ht; reflexivity|]. cbn [or_else] in Hd'.
    destruct (trim (c :: r)); [contradiction|discriminate Hd'].
Qed.

End IngestRuns.

(** ** Uploads that cannot be read, captions, and citations *)

Section Edges.

Context {Ext : Type}.
Variable P : Providers Ext.

Lemma loadYouTube_fetches (env : Env) (url : option jsstring)
    (s : State Ext) :
  exists fetches,
    advances s (snd (loadYouTube P env url s)) fetches
    /\ forallb (is_caption_fetch (or_else url [])) fetches = true
    /\ length fetches <= 2.
Proof.
  unfold loadYouTube. destruct url as [[|c rest]|];
    try (exists []; split; [apply advances_refl|];
         split; [reflexivity|simpl; lia]).
  destruct (negb (truthy (Some (trim (c :: rest)))));
    [exists []; split; [apply advances_refl|split; [reflexivity|simpl; lia]]|].
  unfold bind. rewrite attempt_call_eq.
  destruct (truthy (Some _)).
  - eexists. split; [apply advances_with_ext|]. simpl.
    rewrite bool_decide_eq_true_2 by reflexivity. split; [reflexivity|lia].
  - rewrite attempt_call_eq. cbn [ext with_ext].
    destruct (truthy (Some _)); cbn [ret snd]; rewrite with_ext_with_ext;
      (eexists; split; [apply advances_with_ext|]); simpl;
      rewrite bool_decide_eq_true_2 by reflexivity;
      (split; [reflexivity|lia]).
Qed.

(** X16.  When the uploaded file cannot be accessed, [/process] answers
    500 with [Uploaded file cannot be accessed at <path>].  Besides the
    failed access and the caption fetches of the video URL nothing is
    called: the PDF loader is not run, the file is not unlinked, nothing is
    chunked or written, and no session is created. *)
Theorem process_inaccessible_upload (env : Env) (req : ProcessRequest)
    (s : State Ext) (f : UploadedFile) (p : jsstring) (cause : Err) :
  file req = Some f ->
  path f = Some p ->
  p <> [] ->
  fst (fs_access P p (ext s)) = inl cause ->
  let s' := snd (process P env req s) in
  fst (process P env req s)
  = {| status := 500;
       body := ErrorBody (lit "Uploaded file cannot be accessed at " ++ p) |}
  /\ sessions s' = sessions s
  /\ exists fetches,
       new_events s s' = EvAccess p :: fetches
       /\ forallb (is_caption_fetch (or_else (youtubeUrl req) [])) fetches
          = true.
Proof.
  intros Hfile Hpath Hp Hacc. cbv zeta. rewrite process_eq.
  unfold load_parts, bind, Promise_all3. cbn [ret]. rewrite Hfile, Hpath.
  destruct (loadPdf_inaccessible P p (originalname f) s cause Hp Hacc)
    as [Hpdf _].
  rewrite Hpdf.
  set (s1 := with_ext s (snd (fs_access P p (ext s))) [EvAccess p]).
  destruct (loadYouTube_fetches env (youtubeUrl req) s1)
    as (fetches & Hadv & Hfetch & _).
  destruct (loadYouTube P env (youtubeUrl req) s1) as [ry s2].
  cbn [snd] in Hadv.
  destruct ry as [e|ydocs]; cbn [fst snd];
    (split; [|split]);
    try (unfold process_failed, new_Error; cbn [message];
         destruct p as [|c r]; [contradiction|reflexivity]);
    try (rewrite (proj1 Hadv); reflexivity);
    (exists fetches; split; [|exact Hfetch];
     apply new_events_app; rewrite (proj2 Hadv); unfold s1;
     cbn [trace with_ext]; rewrite <- app_assoc; reflexivity).
Qed.

(** X17.  What the environment sets as [YT_LANGUAGE] changes neither the
    caption fetches [loadYouTube] makes nor the content and source of the
    document it yields; only the note can differ. *)
Theorem loadYouTube_env_only_note (env1 env2 : Env)
    (url : option jsstring) (s : State Ext) :
  snd (loadYouTube P env1 url s) = snd (loadYouTube P env2 url s)
  /\ exists docs1 docs2,
       fst (loadYouTube P env1 url s) = inr docs1
       /\ fst (loadYouTube P env2 url s) = inr docs2
       /\ Forall2 (fun d1 d2 =>
                     pageContent d1 = pageContent d2
                     /\ source_of d1 = source_of d2)
            docs1 docs2.
Proof.
  unfold loadYouTube. destruct url as [[|c rest]|];
    try (split; [reflexivity|]; exists [], [];
         split; [reflexivity|split; [reflexivity|constructor]]).
  destruct (negb (truthy (Some (trim (c :: rest)))));
    [split; [reflexivity|]; exists [], [];
     split; [reflexivity|split; [reflexivity|constructor]]|].
  unfold bind. rewrite !attempt_call_eq.
  destruct (truthy (Some _)).
  - split; [reflexivity|]. eexists. eexists.
    split; [reflexivity|]. split; [reflexivity|].
    constructor; [split; reflexivity|constructor].
  - rewrite !attempt_call_eq. cbn [ext with_ext].
    destruct (truthy (Some _)); cbn [ret fst snd];
      (split; [reflexivity|]); eexists; eexists;
      (split; [reflexivity|]); (split; [reflexivity|]);
      (constructor; [split; reflexivity|constructor]).
Qed.

(** X18.  The sources returned with an answer match the prompt context
    chunk for chunk: block [i] of the context is labelled with the source
    of the [i]-th cited entry, and its body starts with that entry's
    snippet (and is the snippet when the chunk has at most 200 code
    units). *)
Theorem sources_match_context (docs : list Document) (i : nat)
    (d : Document) :
  docs !! i = Some d ->
  exists entry body,
    sources_of docs !! i = Some entry
    /\ context_of docs
       = join (LF ++ LF) (imap (fun i d => context_block (S i) d) docs)
    /\ imap (fun i d => context_block (S i) d) docs !! i
       = Some (lit "# " ++ doc_label (S i) (entry_source entry) ++ LF ++ body)
    /\ snippet entry `prefix_of` body
    /\ length (snippet entry) <= 200
    /\ (length (content_of d) <= 200 -> snippet entry = body).
Proof.
  intros Hd. eexists. exists (take 1200 (content_of d)).
  split; [unfold sources_of; rewrite list_lookup_fmap, Hd; reflexivity|].
  split; [apply context_of_blocks|].
  split; [rewrite list_lookup_imap, Hd; reflexivity|].
  cbn [snippet entry_source]. rewrite slice_0.
  split; [|split].
  - exists (drop 200 (take 1200 (content_of d))).
    rewrite <- (take_drop 200 (take 1200 (content_of d))) at 1.
    rewrite take_take. reflexivity.
  - rewrite length_take. lia.
  - intros Hlen. rewrite !take_ge by lia. reflexivity.
Qed.

End Edges.

(** ** A refused connection *)

Section Refused.

Context {Ext : Type}.
Variable P : Providers Ext.
Variable env : Env.

(** X19.  The connection to the collection is never retried: once it was
    rejected, no later [/process] answers 200 or creates a session, and a
    request whose documents have content and are split fails with that
    same first error, without connecting or writing. *)
Theorem process_after_rejected_connect (e : Err) (req : ProcessRequest)
    (s : State Ext) :
  sharedStorePromise s = Some (inl e) ->
  let resp := fst (process P env req s) in
  let s' := snd (process P env req s) in
  status resp <> 200
  /\ sessions s' = sessions s
  /\ sharedStorePromise s' = Some (inl e)
  /\ forall docs s1 cs,
       load_parts P env req s = (inr docs, s1) ->
       existsb has_content docs = true ->
       splitDocuments P 800 160 docs = inr cs ->
       resp = process_failed e
       /\ new_events s1 s'
          = match file req with
            | Some f => [EvUnlink (or_else (path f) [])]
            | None => []
            end ++ [EvSplitDocuments 800 160 docs].
Proof.
  intros Hrejected. cbv zeta.
  destruct (process_frame P env req s) as [Hkeep Hcases].
  assert (Hnot : ~ exists sid chunks added meta,
                     fst (process P env req s)
                     = json (ProcessBody sid chunks added meta)).
  { intros (sid & c & a & m & Hresp).
    destruct (process P env req s) as [resp s'] eqn:Hrun.
    cbn [fst] in Hresp. subst resp.
    apply process_ok_inv in Hrun
      as (docs & s1 & cs & shared & s5 & loads & _ & _ & _ & _ & _ & _
          & _ & _ & _ & _ & _ & _ & Hcached).
    specialize (Hcached _ Hrejected). discriminate Hcached. }
  destruct Hcases as [Hok|[Hsess Hfail]]; [contradiction|].
  split; [|split; [exact Hsess|split; [exact (Hkeep _ Hrejected)|]]].
  - destruct Hfail as [[e' ->]|(docs & s1 & _ & _ & _ & ->)]; discriminate.
  - intros docs s1 cs Hload Hcontent Hsplit. rewrite process_eq, Hload.
    cbv zeta. rewrite Hcontent, Hsplit, getSharedStore_eq.
    assert (Hp1 : sharedStorePromise s1 = sharedStorePromise s).
    { destruct (load_parts_advances P env req s) as (l & _ & _ & Hp).
      rewrite Hload in Hp. exact Hp. }
    destruct (after_unlink_advances P req s1) as [Hunlink Hp2].
    cbn [sharedStorePromise with_ext]. rewrite Hp2, Hp1, Hrejected.
    cbn [fst snd]. split; [reflexivity|].
    apply new_events_app. cbn [trace with_ext]. rewrite (proj2 Hunlink).
    rewrite app_assoc. reflexivity.
Qed.

End Refused.

(** ** The properties above on concrete runs *)

Lemma sky_run :
  process Demo.providers Demo.env_with_key Demo.sky_request Demo.fresh
  = ({| status := 200;
        body := ProcessBody Demo.sky_session 1 1
                  [ {| meta_source := lit "inline"; meta_note := None;
                       hasContent := true |} ] |},
     Demo.after_sky).
Proof. vm_compute. reflexivity. Defined.

Lemma answer_outcome_witness :
  exists r,
    fst (answer Demo.providers Demo.env_with_key Demo.shared
           Demo2.sky_question None Demo.after_sky) = inr r
    /\ text r = Some (lit "Blue.").
Proof.
  destruct (answer_outcome Demo.providers Demo.env_with_key Demo.shared
              Demo2.sky_question None Demo.after_sky Demo.corpus)
    as (llm & messages & _ & _ & Htext).
  - vm_compute. discriminate.
  - reflexivity.
  - apply (Htext (lit "Blue.")). reflexivity.
Defined.

Lemma process_then_ask_witness :
  status (fst (ask Demo.providers Demo.env_with_key Demo2.sky_ask
                 Demo.after_sky)) <> 404.
Proof.
  destruct (process_then_ask Demo.providers Demo.env_with_key
              Demo.sky_request Demo.fresh Demo.after_sky 200
              Demo.sky_session 1 1 _ Demo2.sky_question sky_run)
    as (shared & _ & _ & _ & _ & Hfound).
  - vm_compute. discriminate.
  - exact Hfound.
Defined.

Lemma process_ok_calls_witness :
  records_written (new_events Demo.fresh Demo.after_sky) = 1.
Proof.
  destruct (process_ok_calls Demo.providers Demo.env_with_key
              Demo.sky_request Demo.fresh Demo.after_sky 200
              Demo.sky_session 1 1 _ sky_run)
    as (docs & s1 & cs & loads & _ & _ & _ & _ & Hwritten & _).
  exact Hwritten.
Defined.


Lemma process_nothing_supplied_witness :
  process Demo.providers Demo.env_with_key
    {| inlineText := Some (lit "   ");
       youtubeUrl := Some [];
       file := None |} Demo.after_sky
  = ({| status := 400; body := NoContentBody no_content_error [] |},
     Demo.after_sky).
Proof.
  apply (process_nothing_supplied Demo.providers Demo.env_with_key
           {| inlineText := Some (lit "   ");
              youtubeUrl := Some [];
              file := None |} Demo.after_sky).
  repeat split; vm_compute; reflexivity.
Defined.

Lemma process_inline_has_content_witness :
  status (fst (process
                 (Demo2.with_qdrant (inl Demo2.refused) (inr tt))
                 Demo.env_with_key Demo.sky_request Demo.fresh)) <> 400.
Proof.
  apply (process_inline_has_content
           (Demo2.with_qdrant (inl Demo2.refused) (inr tt))
           Demo.env_with_key Demo.sky_request Demo.fresh
           (lit "The sky is blue.") eq_refl).
  vm_compute. discriminate.
Defined.

Lemma process_inaccessible_upload_witness :
  fst (process (Demo2.with_upload (inl Demo2.enoent) (inr [Demo2.page]))
         Demo.env_with_key Demo2.upload_request Demo.fresh)
  = {| status := 500;
       body := ErrorBody
                 (lit "Uploaded file cannot be accessed at uploads/3f9a") |}.
Proof.
  apply (process_inaccessible_upload
           (Demo2.with_upload (inl Demo2.enoent) (inr [Demo2.page]))
           Demo.env_with_key Demo2.upload_request Demo.fresh Demo2.upload
           Demo2.tmp Demo2.enoent eq_refl eq_refl).
  - vm_compute. discriminate.
  - reflexivity.
Defined.

Lemma sources_match_context_witness :
  exists entry body,
    sources_of Demo.corpus !! 1 = Some entry
    /\ snippet entry `prefix_of` body
    /\ entry_source entry = lit "unknown".
Proof.
  destruct (sources_match_context Demo.corpus 1 _ eq_refl)
    as (entry & body & Hentry & _ & _ & Hprefix & _).
  exists entry, body. split; [exact Hentry|]. split; [exact Hprefix|].
  vm_compute in Hentry. injection Hentry as <-. reflexivity.
Defined.

Lemma process_after_rejected_connect_witness :
  fst (process Demo.providers Demo.env_with_key Demo.sky_request
         Demo2.after_refusal)
  = {| status := 500;
       body := ErrorBody (lit "connect ECONNREFUSED 127.0.0.1:6333") |}.
Proof.
  destruct (process_after_rejected_connect Demo.providers Demo.env_with_key
              Demo2.refused Demo.sky_request Demo2.after_refusal eq_refl)
    as (_ & _ & _ & Hsame).
  destruct (Hsame [Demo.sky] Demo2.after_refusal [Demo.sky])
    as [Hresp _]; [reflexivity|reflexivity|reflexivity|].
  rewrite Hresp. reflexivity.
Defined.
